(** * 3DMatrixM: the reducer-driven UI state of the 3D scene editor

    A shallow embedding of
      - [src/types]                  (the data model),
      - [contexts/AppContext.tsx]    ([appReducer] and the initial state),
      - [components/TransformationControls.tsx], [ViewportControls.tsx],
        [MatrixPanel.tsx], [AdvancedMatrixFeatures.tsx] (the event handlers).

    JavaScript numbers are modelled in exact arithmetic: [number] is the
    type of real numbers.  A value that the source tests with [isNaN] is
    an [option number], [None] standing for NaN.

    The rendering library (three.js) is a dependency and not part of the
    repository.  Its [Matrix4] and [Object3D] methods that the handlers
    call are modelled here after the library; [Matrix4.decompose],
    [Euler.setFromQuaternion] and the global [parseFloat] are parameters. *)

From Stdlib Require Import Reals Lra Lia ZArith List Ascii String Bool.
From Stdlib Require Import Zfloor.
From Stdlib Require Import RNsatz DecimalString DecimalN.
Import ListNotations.
Local Open Scope string_scope.
Local Open Scope list_scope.

Set Implicit Arguments.

(* ------------------------------------------------------------------ *)
(** ** Data model ([types/index.ts]) *)

Abbreviation number := R.

(** A reference to a mutable library object (a [THREE.Matrix4] or a
    [THREE.Mesh]) held in the store [Sys] below. *)
Definition loc : Type := nat.

(** An object literal [{ x, y, z }], also the shape of [THREE.Vector3]. *)
Module Vec.
Record t : Type := mk { x : number; y : number; z : number }.
End Vec.
Definition Vector3 : Type := Vec.t.

Inductive EulerOrder : Type := XYZ | YZX | ZXY | XZY | YXZ | ZYX.

(** [THREE.Euler]: three angles and a rotation order. *)
Module Euler.
Record t : Type := mk { x : number; y : number; z : number; order : EulerOrder }.
End Euler.

Inductive ObjectType : Type := cube | sphere | cylinder | plane.

Record SceneObject : Type := mkSceneObject {
  so_id : string;
  so_name : string;
  so_type : ObjectType;
  so_mesh : loc;
  so_position : Vector3;
  so_rotation : Euler.t;
  so_scale : Vector3;
  so_matrix : loc;
  so_color : string
}.

Record Transform : Type := mkTransform {
  position : Vec.t;
  rotation : Vec.t;
  scale : Vec.t
}.

Inductive Projection : Type := perspective | orthographic.

Record ViewportSettings : Type := mkViewportSettings {
  showGrid : bool;
  showAxes : bool;
  wireframe : bool;
  projection : Projection
}.

Inductive Theme : Type := light | dark.

Record AppState : Type := mkAppState {
  objects : list SceneObject;
  selectedObjectId : option string;
  transform : Transform;
  viewportSettings : ViewportSettings;
  theme : Theme
}.

(* ------------------------------------------------------------------ *)
(** ** Actions ([AppContext.tsx]) *)

(** The payload of [UPDATE_TRANSFORM]: an object literal holding some of
    the keys [position], [rotation], [scale]. *)
Record TransformPatch : Type := mkTransformPatch {
  p_position : option Vec.t;
  p_rotation : option Vec.t;
  p_scale : option Vec.t
}.

(** The payload of [UPDATE_VIEWPORT_SETTINGS]: some of the four keys. *)
Record ViewportPatch : Type := mkViewportPatch {
  p_showGrid : option bool;
  p_showAxes : option bool;
  p_wireframe : option bool;
  p_projection : option Projection
}.

Inductive AppAction : Type :=
| ADD_OBJECT (payload : SceneObject)
| REMOVE_OBJECT (payload : string)
| SELECT_OBJECT (payload : string)
| UPDATE_TRANSFORM (payload : TransformPatch)
| RESET_TRANSFORM
| UPDATE_VIEWPORT_SETTINGS (payload : ViewportPatch)
| TOGGLE_THEME
| UPDATE_OBJECT_MATRIX (id : string) (matrix : loc).

Definition initialTransform : Transform :=
  {| position := Vec.mk 0%R 0%R 0%R;
     rotation := Vec.mk 0%R 0%R 0%R;
     scale := Vec.mk 1%R 1%R 1%R |}.

Definition initialViewportSettings : ViewportSettings :=
  {| showGrid := true;
     showAxes := true;
     wireframe := false;
     projection := perspective |}.

Definition initialState : AppState :=
  {| objects := [];
     selectedObjectId := None;
     transform := initialTransform;
     viewportSettings := initialViewportSettings;
     theme := dark |}.

(** [{ ...a, ...b }] on one key: the key of [b] wins when it is there. *)
Definition spread {A : Type} (old : A) (new : option A) : A :=
  match new with
  | Some v => v
  | None => old
  end.

Definition spreadTransform (t : Transform) (p : TransformPatch) : Transform :=
  {| position := spread (position t) (p_position p);
     rotation := spread (rotation t) (p_rotation p);
     scale := spread (scale t) (p_scale p) |}.

Definition spreadViewportSettings (v : ViewportSettings) (p : ViewportPatch)
  : ViewportSettings :=
  {| showGrid := spread (showGrid v) (p_showGrid p);
     showAxes := spread (showAxes v) (p_showAxes p);
     wireframe := spread (wireframe v) (p_wireframe p);
     projection := spread (projection v) (p_projection p) |}.

(** [state.objects.find(obj => obj.id === id)] *)
Definition findObject (id : string) (objs : list SceneObject) : option SceneObject :=
  find (fun obj => String.eqb (so_id obj) id) objs.

(** [state.selectedObjectId === payload ? null : state.selectedObjectId] *)
Definition deselect (sel : option string) (payload : string) : option string :=
  match sel with
  | Some id => if String.eqb id payload then None else Some id
  | None => None
  end.

(** The transform copied out of an object by [SELECT_OBJECT]. *)
Definition transformOf (o : SceneObject) : Transform :=
  {| position := Vec.mk (Vec.x (so_position o)) (Vec.y (so_position o))
                        (Vec.z (so_position o));
     rotation := Vec.mk (Euler.x (so_rotation o)) (Euler.y (so_rotation o))
                        (Euler.z (so_rotation o));
     scale := Vec.mk (Vec.x (so_scale o)) (Vec.y (so_scale o))
                     (Vec.z (so_scale o)) |}.

(** The [default] case of the [switch] is out of reach of an [AppAction]:
    [type] is one of the eight strings. *)
Definition appReducer (state : AppState) (action : AppAction) : AppState :=
  match action with
  | ADD_OBJECT payload =>
      {| objects := objects state ++ [payload];
         selectedObjectId := selectedObjectId state;
         transform := transform state;
         viewportSettings := viewportSettings state;
         theme := theme state |}
  | REMOVE_OBJECT payload =>
      {| objects := filter (fun obj => negb (String.eqb (so_id obj) payload))
                           (objects state);
         selectedObjectId := deselect (selectedObjectId state) payload;
         transform := transform state;
         viewportSettings := viewportSettings state;
         theme := theme state |}
  | SELECT_OBJECT payload =>
      let selectedObject := findObject payload (objects state) in
      {| objects := objects state;
         selectedObjectId := Some payload;
         transform := match selectedObject with
                      | Some o => transformOf o
                      | None => initialTransform
                      end;
         viewportSettings := viewportSettings state;
         theme := theme state |}
  | UPDATE_TRANSFORM payload =>
      {| objects := objects state;
         selectedObjectId := selectedObjectId state;
         transform := spreadTransform (transform state) payload;
         viewportSettings := viewportSettings state;
         theme := theme state |}
  | RESET_TRANSFORM =>
      {| objects := objects state;
         selectedObjectId := selectedObjectId state;
         transform := initialTransform;
         viewportSettings := viewportSettings state;
         theme := theme state |}
  | UPDATE_VIEWPORT_SETTINGS payload =>
      {| objects := objects state;
         selectedObjectId := selectedObjectId state;
         transform := transform state;
         viewportSettings := spreadViewportSettings (viewportSettings state) payload;
         theme := theme state |}
  | TOGGLE_THEME =>
      {| objects := objects state;
         selectedObjectId := selectedObjectId state;
         transform := transform state;
         viewportSettings := viewportSettings state;
         theme := match theme state with light => dark | dark => light end |}
  | UPDATE_OBJECT_MATRIX id matrix =>
      {| objects := map (fun obj =>
                           if String.eqb (so_id obj) id
                           then {| so_id := so_id obj; so_name := so_name obj;
                                   so_type := so_type obj; so_mesh := so_mesh obj;
                                   so_position := so_position obj;
                                   so_rotation := so_rotation obj;
                                   so_scale := so_scale obj;
                                   so_matrix := matrix;
                                   so_color := so_color obj |}
                           else obj)
                        (objects state);
         selectedObjectId := selectedObjectId state;
         transform := transform state;
         viewportSettings := viewportSettings state;
         theme := theme state |}
  end.

(** [useReducer]: actions dispatched one after the other. *)
Definition dispatchAll (state : AppState) (actions : list AppAction) : AppState :=
  fold_left appReducer actions state.

(* ------------------------------------------------------------------ *)
(** ** [THREE.Matrix4]: the element arithmetic of the methods the panels call

    Modelled from the spec: the library's [Matrix4] is not under [src/];
    the spec has its methods be the textbook linear-algebra formulas, and
    the definitions follow three.js.  [elements] is the column-major
    array of sixteen numbers; the field [eK] is [elements[K]].  Each
    function below is the arithmetic of the method of the same name on
    the receiver's elements; the methods themselves, which write into the
    receiver, are in module [M4]. *)

Module Matrix4.
Local Open Scope R_scope.

Record t : Type := mk {
  e0 : number; e1 : number; e2 : number; e3 : number;
  e4 : number; e5 : number; e6 : number; e7 : number;
  e8 : number; e9 : number; e10 : number; e11 : number;
  e12 : number; e13 : number; e14 : number; e15 : number
}.

(** [set(n11, n12, ..., n44)]: row-major arguments, column-major storage. *)
Definition set (n11 n12 n13 n14 n21 n22 n23 n24
                n31 n32 n33 n34 n41 n42 n43 n44 : number) : t :=
  {| e0 := n11; e4 := n12; e8 := n13; e12 := n14;
     e1 := n21; e5 := n22; e9 := n23; e13 := n24;
     e2 := n31; e6 := n32; e10 := n33; e14 := n34;
     e3 := n41; e7 := n42; e11 := n43; e15 := n44 |}.

Definition identity : t :=
  set 1 0 0 0
      0 1 0 0
      0 0 1 0
      0 0 0 1.

Definition zero : t :=
  set 0 0 0 0 0 0 0 0 0 0 0 0 0 0 0 0.

(** [transpose()]: the six swaps across the diagonal. *)
Definition transpose (m : t) : t :=
  {| e0 := e0 m; e1 := e4 m; e2 := e8 m; e3 := e12 m;
     e4 := e1 m; e5 := e5 m; e6 := e9 m; e7 := e13 m;
     e8 := e2 m; e9 := e6 m; e10 := e10 m; e11 := e14 m;
     e12 := e3 m; e13 := e7 m; e14 := e11 m; e15 := e15 m |}.

(** [multiplyMatrices(a, b)] *)
Definition multiplyMatrices (a b : t) : t :=
  let a11 := e0 a in let a12 := e4 a in let a13 := e8 a in let a14 := e12 a in
  let a21 := e1 a in let a22 := e5 a in let a23 := e9 a in let a24 := e13 a in
  let a31 := e2 a in let a32 := e6 a in let a33 := e10 a in let a34 := e14 a in
  let a41 := e3 a in let a42 := e7 a in let a43 := e11 a in let a44 := e15 a in
  let b11 := e0 b in let b12 := e4 b in let b13 := e8 b in let b14 := e12 b in
  let b21 := e1 b in let b22 := e5 b in let b23 := e9 b in let b24 := e13 b in
  let b31 := e2 b in let b32 := e6 b in let b33 := e10 b in let b34 := e14 b in
  let b41 := e3 b in let b42 := e7 b in let b43 := e11 b in let b44 := e15 b in
  {| e0 := a11 * b11 + a12 * b21 + a13 * b31 + a14 * b41;
     e4 := a11 * b12 + a12 * b22 + a13 * b32 + a14 * b42;
     e8 := a11 * b13 + a12 * b23 + a13 * b33 + a14 * b43;
     e12 := a11 * b14 + a12 * b24 + a13 * b34 + a14 * b44;
     e1 := a21 * b11 + a22 * b21 + a23 * b31 + a24 * b41;
     e5 := a21 * b12 + a22 * b22 + a23 * b32 + a24 * b42;
     e9 := a21 * b13 + a22 * b23 + a23 * b33 + a24 * b43;
     e13 := a21 * b14 + a22 * b24 + a23 * b34 + a24 * b44;
     e2 := a31 * b11 + a32 * b21 + a33 * b31 + a34 * b41;
     e6 := a31 * b12 + a32 * b22 + a33 * b32 + a34 * b42;
     e10 := a31 * b13 + a32 * b23 + a33 * b33 + a34 * b43;
     e14 := a31 * b14 + a32 * b24 + a33 * b34 + a34 * b44;
     e3 := a41 * b11 + a42 * b21 + a43 * b31 + a44 * b41;
     e7 := a41 * b12 + a42 * b22 + a43 * b32 + a44 * b42;
     e11 := a41 * b13 + a42 * b23 + a43 * b33 + a44 * b43;
     e15 := a41 * b14 + a42 * b24 + a43 * b34 + a44 * b44 |}.

(** [===] on two numbers. *)
Definition strictEq (a b : number) : bool :=
  if Req_dec_T a b then true else false.

(** [equals(matrix)]: the loop over the sixteen elements. *)
Definition equals (m n : t) : bool :=
  strictEq (e0 m) (e0 n) && strictEq (e1 m) (e1 n) &&
  strictEq (e2 m) (e2 n) && strictEq (e3 m) (e3 n) &&
  strictEq (e4 m) (e4 n) && strictEq (e5 m) (e5 n) &&
  strictEq (e6 m) (e6 n) && strictEq (e7 m) (e7 n) &&
  strictEq (e8 m) (e8 n) && strictEq (e9 m) (e9 n) &&
  strictEq (e10 m) (e10 n) && strictEq (e11 m) (e11 n) &&
  strictEq (e12 m) (e12 n) && strictEq (e13 m) (e13 n) &&
  strictEq (e14 m) (e14 n) && strictEq (e15 m) (e15 n).

(** [determinant()] *)
Definition determinant (m : t) : number :=
  let n11 := e0 m in let n12 := e4 m in let n13 := e8 m in let n14 := e12 m in
  let n21 := e1 m in let n22 := e5 m in let n23 := e9 m in let n24 := e13 m in
  let n31 := e2 m in let n32 := e6 m in let n33 := e10 m in let n34 := e14 m in
  let n41 := e3 m in let n42 := e7 m in let n43 := e11 m in let n44 := e15 m in
  n41 * (n14 * n23 * n32 - n13 * n24 * n32 - n14 * n22 * n33
         + n12 * n24 * n33 + n13 * n22 * n34 - n12 * n23 * n34)
  + n42 * (n11 * n23 * n34 - n11 * n24 * n33 + n14 * n21 * n33
           - n13 * n21 * n34 + n13 * n24 * n31 - n14 * n23 * n31)
  + n43 * (n11 * n24 * n32 - n11 * n22 * n34 - n14 * n21 * n32
           + n12 * n21 * n34 + n14 * n22 * n31 - n12 * n24 * n31)
  + n44 * (- n13 * n22 * n31 - n11 * n23 * n32 + n11 * n22 * n33
           + n13 * n21 * n32 - n12 * n21 * n33 + n12 * n23 * n31).

(** [invert()]: the cofactor expansion; a matrix whose determinant is
    zero becomes the zero matrix. *)
Definition invert (m : t) : t :=
  let n11 := e0 m in let n21 := e1 m in let n31 := e2 m in let n41 := e3 m in
  let n12 := e4 m in let n22 := e5 m in let n32 := e6 m in let n42 := e7 m in
  let n13 := e8 m in let n23 := e9 m in let n33 := e10 m in let n43 := e11 m in
  let n14 := e12 m in let n24 := e13 m in let n34 := e14 m in let n44 := e15 m in
  let t11 := n23 * n34 * n42 - n24 * n33 * n42 + n24 * n32 * n43
             - n22 * n34 * n43 - n23 * n32 * n44 + n22 * n33 * n44 in
  let t12 := n14 * n33 * n42 - n13 * n34 * n42 - n14 * n32 * n43
             + n12 * n34 * n43 + n13 * n32 * n44 - n12 * n33 * n44 in
  let t13 := n13 * n24 * n42 - n14 * n23 * n42 + n14 * n22 * n43
             - n12 * n24 * n43 - n13 * n22 * n44 + n12 * n23 * n44 in
  let t14 := n14 * n23 * n32 - n13 * n24 * n32 - n14 * n22 * n33
             + n12 * n24 * n33 + n13 * n22 * n34 - n12 * n23 * n34 in
  let det := n11 * t11 + n21 * t12 + n31 * t13 + n41 * t14 in
  if strictEq det 0 then zero
  else
    let detInv := 1 / det in
    {| e0 := t11 * detInv;
       e1 := (n24 * n33 * n41 - n23 * n34 * n41 - n24 * n31 * n43
              + n21 * n34 * n43 + n23 * n31 * n44 - n21 * n33 * n44) * detInv;
       e2 := (n22 * n34 * n41 - n24 * n32 * n41 + n24 * n31 * n42
              - n21 * n34 * n42 - n22 * n31 * n44 + n21 * n32 * n44) * detInv;
       e3 := (n23 * n32 * n41 - n22 * n33 * n41 - n23 * n31 * n42
              + n21 * n33 * n42 + n22 * n31 * n43 - n21 * n32 * n43) * detInv;
       e4 := t12 * detInv;
       e5 := (n13 * n34 * n41 - n14 * n33 * n41 + n14 * n31 * n43
              - n11 * n34 * n43 - n13 * n31 * n44 + n11 * n33 * n44) * detInv;
       e6 := (n14 * n32 * n41 - n12 * n34 * n41 - n14 * n31 * n42
              + n11 * n34 * n42 + n12 * n31 * n44 - n11 * n32 * n44) * detInv;
       e7 := (n12 * n33 * n41 - n13 * n32 * n41 + n13 * n31 * n42
              - n11 * n33 * n42 - n12 * n31 * n43 + n11 * n32 * n43) * detInv;
       e8 := t13 * detInv;
       e9 := (n14 * n23 * n41 - n13 * n24 * n41 - n14 * n21 * n43
              + n11 * n24 * n43 + n13 * n21 * n44 - n11 * n23 * n44) * detInv;
       e10 := (n12 * n24 * n41 - n14 * n22 * n41 + n14 * n21 * n42
               - n11 * n24 * n42 - n12 * n21 * n44 + n11 * n22 * n44) * detInv;
       e11 := (n13 * n22 * n41 - n12 * n23 * n41 - n13 * n21 * n42
               + n11 * n23 * n42 + n12 * n21 * n43 - n11 * n22 * n43) * detInv;
       e12 := t14 * detInv;
       e13 := (n13 * n24 * n31 - n14 * n23 * n31 + n14 * n21 * n33
               - n11 * n24 * n33 - n13 * n21 * n34 + n11 * n23 * n34) * detInv;
       e14 := (n14 * n22 * n31 - n12 * n24 * n31 - n14 * n21 * n32
               + n11 * n24 * n32 + n12 * n21 * n34 - n11 * n22 * n34) * detInv;
       e15 := (n12 * n23 * n31 - n13 * n22 * n31 + n13 * n21 * n32
               - n11 * n23 * n32 - n12 * n21 * n33 + n11 * n22 * n33) * detInv |}.

End Matrix4.

(** [THREE.Quaternion] *)
Module Quaternion.
Record t : Type := mk { x : number; y : number; z : number; w : number }.
End Quaternion.

(** Modelled from the spec: [Matrix4.compose(position, quaternion, scale)]
    of the library, the matrix of a scaling, then a rotation, then a
    translation. *)
Definition compose (p : Vector3) (q : Quaternion.t) (s : Vector3) : Matrix4.t :=
  let x := Quaternion.x q in let y := Quaternion.y q in
  let z := Quaternion.z q in let w := Quaternion.w q in
  let x2 := (x + x)%R in let y2 := (y + y)%R in let z2 := (z + z)%R in
  let xx := (x * x2)%R in let xy := (x * y2)%R in let xz := (x * z2)%R in
  let yy := (y * y2)%R in let yz := (y * z2)%R in let zz := (z * z2)%R in
  let wx := (w * x2)%R in let wy := (w * y2)%R in let wz := (w * z2)%R in
  let sx := Vec.x s in let sy := Vec.y s in let sz := Vec.z s in
  {| Matrix4.e0 := (1 - (yy + zz)) * sx;
     Matrix4.e1 := (xy + wz) * sx;
     Matrix4.e2 := (xz - wy) * sx;
     Matrix4.e3 := 0;
     Matrix4.e4 := (xy - wz) * sy;
     Matrix4.e5 := (1 - (xx + zz)) * sy;
     Matrix4.e6 := (yz + wx) * sy;
     Matrix4.e7 := 0;
     Matrix4.e8 := (xz + wy) * sz;
     Matrix4.e9 := (yz - wx) * sz;
     Matrix4.e10 := (1 - (xx + yy)) * sz;
     Matrix4.e11 := 0;
     Matrix4.e12 := Vec.x p;
     Matrix4.e13 := Vec.y p;
     Matrix4.e14 := Vec.z p;
     Matrix4.e15 := 1 |}%R.

(* ------------------------------------------------------------------ *)
(** ** The store of mutable objects and the effects of a handler

    A [THREE.Matrix4] and a [THREE.Mesh] are objects that the handlers
    write into; a variable of the source holds a reference ([loc]) to
    one.  [next] is the next fresh reference, so the allocated objects
    are the references below [next]. *)

(** Modelled from the spec: the part of a library [THREE.Mesh]
    ([Object3D]) the handlers touch.  [parent] is the reference of the
    parent's [matrixWorld], [None] for [parent === null]; the meshes made
    by [addObject] have no children. *)
Record Mesh : Type := mkMesh {
  mesh_position : Vector3;
  mesh_quaternion : Quaternion.t;
  mesh_scale : Vector3;
  matrix : loc;
  matrixWorld : loc;
  matrixAutoUpdate : bool;
  matrixWorldNeedsUpdate : bool;
  parent : option loc
}.

(** What a handler does besides writing into library objects, in the
    order in which it does it. *)
Inductive Effect : Type :=
| dispatch (action : AppAction)
| toast_success (message : string)
| toast_error (message : string)
| setCustomMatrix (value : list (option number)).

Record Sys : Type := mkSys {
  next : loc;
  matrices : loc -> Matrix4.t;
  meshes : loc -> Mesh;
  effects : list Effect
}.

Definition upd {A : Type} (f : loc -> A) (l : loc) (v : A) : loc -> A :=
  fun l' => if Nat.eqb l' l then v else f l'.

(** The state monad of handlers. *)
Definition Handler (A : Type) : Type := Sys -> A * Sys.

Definition ret {A : Type} (a : A) : Handler A := fun s => (a, s).

Definition bind {A B : Type} (c : Handler A) (k : A -> Handler B) : Handler B :=
  fun s => let (a, s') := c s in k a s'.

Declare Scope handler_scope.
Delimit Scope handler_scope with handler.
Bind Scope handler_scope with Handler.
Notation "x <- c ;; k" := (bind c (fun x => k))
  (at level 61, c at next level, right associativity) : handler_scope.
Notation "c ;; k" := (bind c (fun _ => k))
  (at level 61, right associativity) : handler_scope.
Local Open Scope handler_scope.

Definition exec {A : Type} (c : Handler A) (s : Sys) : Sys := snd (c s).
Definition eval {A : Type} (c : Handler A) (s : Sys) : A := fst (c s).

Definition emit (e : Effect) : Handler unit :=
  fun s => (tt, {| next := next s; matrices := matrices s; meshes := meshes s;
                   effects := effects s ++ [e] |}).

Definition readMatrix (l : loc) : Handler Matrix4.t :=
  fun s => (matrices s l, s).

Definition writeMatrix (l : loc) (v : Matrix4.t) : Handler unit :=
  fun s => (tt, {| next := next s; matrices := upd (matrices s) l v;
                   meshes := meshes s; effects := effects s |}).

Definition readMesh (l : loc) : Handler Mesh :=
  fun s => (meshes s l, s).

Definition writeMesh (l : loc) (v : Mesh) : Handler unit :=
  fun s => (tt, {| next := next s; matrices := matrices s;
                   meshes := upd (meshes s) l v; effects := effects s |}).

(** The actions a handler has dispatched, oldest first. *)
Definition dispatched (es : list Effect) : list AppAction :=
  flat_map (fun e => match e with dispatch a => [a] | _ => [] end) es.

(** Modelled from the spec: the methods of a library [THREE.Matrix4]
    object, writing into the receiver; each returns [this]. *)
Module M4.

(** [new THREE.Matrix4()]: a fresh object holding the identity. *)
Definition new : Handler loc :=
  fun s => (next s, {| next := S (next s);
                       matrices := upd (matrices s) (next s) Matrix4.identity;
                       meshes := meshes s; effects := effects s |}).

Definition identity (this : loc) : Handler loc :=
  writeMatrix this Matrix4.identity ;; ret this.

Definition copy (this m : loc) : Handler loc :=
  v <- readMatrix m ;; writeMatrix this v ;; ret this.

(** [clone()] is [new Matrix4().fromArray(this.elements)]. *)
Definition clone (this : loc) : Handler loc :=
  c <- new ;; copy c this.

Definition transpose (this : loc) : Handler loc :=
  v <- readMatrix this ;; writeMatrix this (Matrix4.transpose v) ;; ret this.

Definition multiplyMatrices (this a b : loc) : Handler loc :=
  va <- readMatrix a ;; vb <- readMatrix b ;;
  writeMatrix this (Matrix4.multiplyMatrices va vb) ;; ret this.

(** [multiply(m)] is [this.multiplyMatrices(this, m)]. *)
Definition multiply (this m : loc) : Handler loc :=
  multiplyMatrices this this m.

Definition invert (this : loc) : Handler loc :=
  v <- readMatrix this ;; writeMatrix this (Matrix4.invert v) ;; ret this.

Definition determinant (this : loc) : Handler number :=
  v <- readMatrix this ;; ret (Matrix4.determinant v).

Definition equals (this m : loc) : Handler bool :=
  v <- readMatrix this ;; u <- readMatrix m ;; ret (Matrix4.equals v u).

End M4.

(** Modelled from the spec: the methods of the library's [Object3D] that
    a mesh inherits. *)
Module Object3D.

Definition setMatrixAutoUpdate (this : loc) (b : bool) : Handler unit :=
  o <- readMesh this ;;
  writeMesh this {| mesh_position := mesh_position o;
                    mesh_quaternion := mesh_quaternion o;
                    mesh_scale := mesh_scale o;
                    matrix := matrix o; matrixWorld := matrixWorld o;
                    matrixAutoUpdate := b;
                    matrixWorldNeedsUpdate := matrixWorldNeedsUpdate o;
                    parent := parent o |}.

Definition setMatrixWorldNeedsUpdate (this : loc) (b : bool) : Handler unit :=
  o <- readMesh this ;;
  writeMesh this {| mesh_position := mesh_position o;
                    mesh_quaternion := mesh_quaternion o;
                    mesh_scale := mesh_scale o;
                    matrix := matrix o; matrixWorld := matrixWorld o;
                    matrixAutoUpdate := matrixAutoUpdate o;
                    matrixWorldNeedsUpdate := b;
                    parent := parent o |}.

(** [updateMatrix()] *)
Definition updateMatrix (this : loc) : Handler unit :=
  o <- readMesh this ;;
  writeMatrix (matrix o)
              (compose (mesh_position o) (mesh_quaternion o) (mesh_scale o)) ;;
  setMatrixWorldNeedsUpdate this true.

(** [updateMatrixWorld(force)] of an object without children. *)
Definition updateMatrixWorld (this : loc) (force : bool) : Handler unit :=
  o <- readMesh this ;;
  (if matrixAutoUpdate o then updateMatrix this else ret tt) ;;
  o <- readMesh this ;;
  if matrixWorldNeedsUpdate o || force then
    match parent o with
    | None => M4.copy (matrixWorld o) (matrix o)
    | Some parentWorld => M4.multiplyMatrices (matrixWorld o) parentWorld (matrix o)
    end ;;
    setMatrixWorldNeedsUpdate this false
  else ret tt.

End Object3D.

(** One event: the handler runs against the state of the current
    render, then the reducer consumes the actions it dispatched. *)
Definition handle (h : Handler unit) (state : AppState) (s : Sys)
  : AppState * Sys :=
  let s' := exec h {| next := next s; matrices := matrices s;
                      meshes := meshes s; effects := [] |} in
  (dispatchAll state (dispatched (effects s')), s').

(** [state.objects.find(obj => obj.id === state.selectedObjectId)] *)
Definition selectedObject (state : AppState) : option SceneObject :=
  match selectedObjectId state with
  | Some id => findObject id (objects state)
  | None => None
  end.

(* ------------------------------------------------------------------ *)
(** ** [AdvancedMatrixFeatures.tsx] *)

Definition checkIfOrthogonal (matrix : loc) : Handler bool :=
  let m := matrix in
  c <- M4.clone m ;;
  mT <- M4.transpose c ;;
  i <- M4.new ;;
  identity <- M4.identity i ;;
  M4.multiply mT m ;;
  M4.equals mT identity.

(* ------------------------------------------------------------------ *)
(** ** [MatrixPanel.tsx] *)

Definition getCurrentMatrix (state : AppState) : Handler loc :=
  match selectedObject state with
  | Some o => ret (so_matrix o)
  | None => i <- M4.new ;; M4.identity i
  end.

(** The [isOrthogonal] constant computed at each render of the panel. *)
Definition isOrthogonal (state : AppState) : Handler bool :=
  currentMatrix <- getCurrentMatrix state ;;
  let m := currentMatrix in
  c <- M4.clone m ;;
  mT <- M4.transpose c ;;
  i <- M4.new ;;
  identity <- M4.identity i ;;
  M4.multiply mT m ;;
  M4.equals mT identity.

Definition identityPayload : TransformPatch :=
  {| p_position := Some (Vec.mk 0%R 0%R 0%R);
     p_rotation := Some (Vec.mk 0%R 0%R 0%R);
     p_scale := Some (Vec.mk 1%R 1%R 1%R) |}.


Section Decompose.

(** [Matrix4.decompose] into fresh [position], [quaternion], [scale], and
    [new THREE.Euler().setFromQuaternion]: library functions that only
    produce the numbers the handler forwards. *)
Variable decompose : Matrix4.t -> Vector3 * Quaternion.t * Vector3.
Variable setFromQuaternion : Quaternion.t -> Euler.t.

(** The payload built from a decomposed matrix. *)
Definition decomposedPayload (m : Matrix4.t) : TransformPatch :=
  let '(position, quaternion, scale) := decompose m in
  let euler := setFromQuaternion quaternion in
  {| p_position := Some (Vec.mk (Vec.x position) (Vec.y position) (Vec.z position));
     p_rotation := Some (Vec.mk (Euler.x euler) (Euler.y euler) (Euler.z euler));
     p_scale := Some (Vec.mk (Vec.x scale) (Vec.y scale) (Vec.z scale)) |}.

Definition invertMatrix (state : AppState) : Handler unit :=
  match selectedObject state with
  | None => ret tt
  | Some o =>
      mesh <- readMesh (so_mesh o) ;;
      i <- M4.new ;;
      c <- M4.copy i (matrix mesh) ;;
      inverseMatrix <- M4.invert c ;;
      det <- M4.determinant inverseMatrix ;;
      if Matrix4.strictEq det 0 then
        emit (toast_error "Matrix is not invertible (determinant is 0)")
      else
        M4.copy (matrix mesh) inverseMatrix ;;
        Object3D.setMatrixAutoUpdate (so_mesh o) false ;;
        Object3D.updateMatrixWorld (so_mesh o) true ;;
        inv <- readMatrix inverseMatrix ;;
        emit (dispatch (UPDATE_TRANSFORM (decomposedPayload inv))) ;;
        emit (toast_success "Matrix inverted")
  end.

End Decompose.

(** [array[index] = value] on a JavaScript array; [None] is a hole. *)
Definition arraySet {A : Type} (a : list (option A)) (index : nat) (value : A)
  : list (option A) :=
  if Nat.ltb index (List.length a)
  then (firstn index a ++ Some value :: skipn (S index) a)%list
  else (a ++ repeat None (index - List.length a) ++ [Some value])%list.

Section ParseFloat.

(** The global [parseFloat]; [None] is NaN. *)
Variable parseFloat : string -> option number.

Definition handleCustomMatrixChange (customMatrix : list (option number))
    (index : nat) (value : string) : Handler unit :=
  match parseFloat value with
  | Some newValue =>
      let newMatrix := arraySet customMatrix index newValue in
      emit (setCustomMatrix newMatrix)
  | None => ret tt
  end.

End ParseFloat.

(** The [customMatrix] of the next render: the last value handed to
    [setCustomMatrix], the current one when there was none. *)
Definition nextCustomMatrix (customMatrix : list (option number))
    (es : list Effect) : list (option number) :=
  fold_left (fun cur e => match e with setCustomMatrix v => v | _ => cur end)
            es customMatrix.

(* ------------------------------------------------------------------ *)
(** ** [ViewportControls.tsx] *)

Definition toggleGrid (state : AppState) : Handler unit :=
  emit (dispatch (UPDATE_VIEWPORT_SETTINGS
    {| p_showGrid := Some (negb (showGrid (viewportSettings state)));
       p_showAxes := None; p_wireframe := None; p_projection := None |})).

Definition toggleAxes (state : AppState) : Handler unit :=
  emit (dispatch (UPDATE_VIEWPORT_SETTINGS
    {| p_showGrid := None;
       p_showAxes := Some (negb (showAxes (viewportSettings state)));
       p_wireframe := None; p_projection := None |})).

Definition toggleWireframe (state : AppState) : Handler unit :=
  emit (dispatch (UPDATE_VIEWPORT_SETTINGS
    {| p_showGrid := None; p_showAxes := None;
       p_wireframe := Some (negb (wireframe (viewportSettings state)));
       p_projection := None |})).

Definition toggleProjection (state : AppState) : Handler unit :=
  emit (dispatch (UPDATE_VIEWPORT_SETTINGS
    {| p_showGrid := None; p_showAxes := None; p_wireframe := None;
       p_projection := Some (match projection (viewportSettings state) with
                             | perspective => orthographic
                             | orthographic => perspective
                             end) |})).

(* ------------------------------------------------------------------ *)
(** ** [TransformationControls.tsx] *)

(** ['x' | 'y' | 'z'] *)
Module Axis.
Inductive t : Type := x | y | z.
End Axis.

(** ['position' | 'rotation' | 'scale'] *)
Module Key.
Inductive t : Type := position | rotation | scale.
End Key.

(** [v[axis]] *)
Definition getAxis (v : Vec.t) (axis : Axis.t) : number :=
  match axis with
  | Axis.x => Vec.x v
  | Axis.y => Vec.y v
  | Axis.z => Vec.z v
  end.

(** [{ ...v, [axis]: n }] *)
Definition setAxis (v : Vec.t) (axis : Axis.t) (n : number) : Vec.t :=
  match axis with
  | Axis.x => Vec.mk n (Vec.y v) (Vec.z v)
  | Axis.y => Vec.mk (Vec.x v) n (Vec.z v)
  | Axis.z => Vec.mk (Vec.x v) (Vec.y v) n
  end.

(** [state.transform[type]] *)
Definition getKey (t : Transform) (type : Key.t) : Vec.t :=
  match type with
  | Key.position => position t
  | Key.rotation => rotation t
  | Key.scale => scale t
  end.

(** [{ [type]: v }] *)
Definition onlyKey (type : Key.t) (v : Vec.t) : TransformPatch :=
  match type with
  | Key.position => {| p_position := Some v; p_rotation := None; p_scale := None |}
  | Key.rotation => {| p_position := None; p_rotation := Some v; p_scale := None |}
  | Key.scale => {| p_position := None; p_rotation := None; p_scale := Some v |}
  end.

(** The argument of a slider's [onValueChange]: one number per thumb,
    never empty; [value0] is [value[0]]. *)
Record SliderValue : Type := mkSliderValue {
  value0 : number;
  otherThumbs : list number
}.

Definition handlePositionChange (state : AppState) (axis : Axis.t)
    (value : SliderValue) : Handler unit :=
  emit (dispatch (UPDATE_TRANSFORM
    (onlyKey Key.position
       (setAxis (position (transform state)) axis (value0 value))))).

Definition handleRotationChange (state : AppState) (axis : Axis.t)
    (value : SliderValue) : Handler unit :=
  emit (dispatch (UPDATE_TRANSFORM
    (onlyKey Key.rotation
       (setAxis (rotation (transform state)) axis
                ((value0 value * PI) / 180)%R)))).

Definition handleScaleChange (state : AppState) (axis : Axis.t)
    (value : SliderValue) : Handler unit :=
  emit (dispatch (UPDATE_TRANSFORM
    (onlyKey Key.scale
       (setAxis (scale (transform state)) axis (value0 value))))).

Definition handleReset : Handler unit :=
  emit (dispatch RESET_TRANSFORM).

Section ParseFloatControls.

Variable parseFloat : string -> option number.

Definition handleInputChange (state : AppState) (type : Key.t) (axis : Axis.t)
    (value : string) : Handler unit :=
  match parseFloat value with
  | None => ret tt
  | Some numValue =>
      match type with
      | Key.rotation =>
          emit (dispatch (UPDATE_TRANSFORM
            (onlyKey type
               (setAxis (getKey (transform state) type) axis
                        ((numValue * PI) / 180)%R))))
      | _ =>
          emit (dispatch (UPDATE_TRANSFORM
            (onlyKey type
               (setAxis (getKey (transform state) type) axis numValue))))
      end
  end.

End ParseFloatControls.

(** [Number.prototype.toFixed], a built-in, in exact arithmetic.
    The number denoted by the string [x.toFixed(fractionDigits)]: the
    sign of [x], then for a magnitude below [10^21] the decimal [n / 10^f]
    with [n] the integer nearest to the magnitude times [10^f], the larger
    one on a tie; from [10^21] on the string is that of the number itself. *)
Definition toFixed (x : number) (fractionDigits : nat) : number :=
  let a := if Rlt_dec x 0 then (- x)%R else x in
  let v := if Rle_dec (10 ^ 21) a then a
           else (IZR (Zfloor (a * 10 ^ fractionDigits + / 2))
                 / 10 ^ fractionDigits)%R in
  if Rlt_dec x 0 then (- v)%R else v.

(** The [value] of the rotation slider of an axis. *)
Definition rotationSliderValue (state : AppState) (axis : Axis.t) : number :=
  ((getAxis (rotation (transform state)) axis * 180) / PI)%R.

(** The number shown by the rotation [Input] of an axis. *)
Definition rotationInputValue (state : AppState) (axis : Axis.t) : number :=
  toFixed ((getAxis (rotation (transform state)) axis * 180) / PI)%R 1.

(* ------------------------------------------------------------------ *)
(** ** Notions used in the statements *)

(** [l1] is [l2] with some elements left out, the others in order. *)
Inductive Subsequence {A : Type} : list A -> list A -> Prop :=
| Subsequence_nil : Subsequence [] []
| Subsequence_skip : forall a l1 l2, Subsequence l1 l2 -> Subsequence l1 (a :: l2)
| Subsequence_keep : forall a l1 l2, Subsequence l1 l2 -> Subsequence (a :: l1) (a :: l2).

(** The state after one press of a toggle of [ViewportControls]. *)
Definition press (toggle : AppState -> Handler unit) (state : AppState) (s : Sys)
  : AppState :=
  fst (handle (toggle state) state s).

(** What a toggle leaves alone outside the viewport settings. *)
Definition sameOutsideViewport (state state' : AppState) : Prop :=
  objects state' = objects state /\
  selectedObjectId state' = selectedObjectId state /\
  transform state' = transform state /\
  theme state' = theme state.

(** [Array(16).fill(0)], the first [customMatrix]. *)
Definition initialCustomMatrix : list (option number) := repeat (Some 0%R) 16.

(** Sample scenes. *)
Definition sampleCube : SceneObject :=
  {| so_id := "cube_1"; so_name := "Cube 1"; so_type := cube; so_mesh := 0;
     so_position := Vec.mk 1%R 2%R 3%R;
     so_rotation := Euler.mk 0%R (PI / 2)%R 0%R XYZ;
     so_scale := Vec.mk 2%R 2%R 2%R;
     so_matrix := 0; so_color := "#ff6b6b" |}.

Definition sampleSphere : SceneObject :=
  {| so_id := "sphere_2"; so_name := "Sphere 2"; so_type := sphere; so_mesh := 1;
     so_position := Vec.mk (-1)%R 0%R 4%R;
     so_rotation := Euler.mk 0%R 0%R 0%R XYZ;
     so_scale := Vec.mk 1%R 1%R 1%R;
     so_matrix := 3; so_color := "#4ecdc4" |}.

Definition sampleState : AppState :=
  {| objects := [sampleCube; sampleSphere];
     selectedObjectId := Some "cube_1";
     transform := transformOf sampleCube;
     viewportSettings := initialViewportSettings;
     theme := dark |}.

(** A mesh matrix of the sample scene: a translation by (1,2,3) after a
    scaling, as [updateMatrix] composes it. *)
Definition sampleMatrix (sx sy sz : number) : Matrix4.t :=
  compose (Vec.mk 1%R 2%R 3%R) (Quaternion.mk 0%R 0%R 0%R 1%R) (Vec.mk sx sy sz).

Definition sampleMesh (m w : loc) : Mesh :=
  {| mesh_position := Vec.mk 1%R 2%R 3%R;
     mesh_quaternion := Quaternion.mk 0%R 0%R 0%R 1%R;
     mesh_scale := Vec.mk 2%R 2%R 2%R;
     matrix := m; matrixWorld := w;
     matrixAutoUpdate := true; matrixWorldNeedsUpdate := false;
     parent := None |}.

(** A store for [sampleState]: the mesh of the cube owns the matrices 1
    and 2, that of the sphere the matrices 4 and 5; the cached matrices
    are 0 and 3.  [m] is the matrix of the cube's mesh. *)
Definition sampleSys (m : Matrix4.t) : Sys :=
  {| next := 6;
     matrices := fun l => match l with
                          | 0 => sampleMatrix 2 2 2
                          | 1 => m
                          | _ => Matrix4.identity
                          end;
     meshes := fun l => match l with
                        | 0 => sampleMesh 1 2
                        | _ => sampleMesh 4 5
                        end;
     effects := [] |}.

(** [decompose] on the matrices of an unrotated object with positive
    scale, and the Euler angles of the identity rotation. *)
Definition decomposeUnrotated (m : Matrix4.t) : Vector3 * Quaternion.t * Vector3 :=
  (Vec.mk (Matrix4.e12 m) (Matrix4.e13 m) (Matrix4.e14 m),
   Quaternion.mk 0%R 0%R 0%R 1%R,
   Vec.mk (Matrix4.e0 m) (Matrix4.e5 m) (Matrix4.e10 m)).

Definition eulerUnrotated (q : Quaternion.t) : Euler.t :=
  Euler.mk 0%R 0%R 0%R XYZ.

(** [parseFloat] on the strings made of an optional sign, decimal
    digits and an optional fraction, followed by anything: the value of
    that prefix, NaN when it has no digit. *)
Definition digitOf (c : Ascii.ascii) : option nat :=
  let n := Ascii.nat_of_ascii c in
  if Nat.leb 48 n && Nat.leb n 57 then Some (n - 48) else None.

Fixpoint leadingDigits (s : string) : list nat * string :=
  match s with
  | EmptyString => ([], EmptyString)
  | String c rest =>
      match digitOf c with
      | Some d => let (ds, tail) := leadingDigits rest in (d :: ds, tail)
      | None => ([], s)
      end
  end.

Definition digitsValue (ds : list nat) : Z :=
  fold_left (fun acc d => (acc * 10 + Z.of_nat d)%Z) ds 0%Z.

Definition parseDecimal (s : string) : option number :=
  let (negative, unsigned) :=
    match s with
    | String "-"%char rest => (true, rest)
    | String "+"%char rest => (false, rest)
    | _ => (false, s)
    end in
  let (whole, tail) := leadingDigits unsigned in
  let fraction :=
    match tail with
    | String "."%char rest => fst (leadingDigits rest)
    | _ => []
    end in
  match whole, fraction with
  | [], [] => None
  | _, _ =>
      let magnitude :=
        (IZR (digitsValue whole)
         + IZR (digitsValue fraction) / 10 ^ List.length fraction)%R in
      Some (if negative then (- magnitude)%R else magnitude)
  end.

(* ------------------------------------------------------------------ *)
(** ** More of [TransformationControls.tsx] *)

Definition handleUniformScale (value : SliderValue) : Handler unit :=
  emit (dispatch (UPDATE_TRANSFORM
    {| p_position := None; p_rotation := None;
       p_scale := Some (Vec.mk (value0 value) (value0 value) (value0 value)) |})).

(* ------------------------------------------------------------------ *)
(** ** More of [ViewportControls.tsx], and the theme effect of [App.tsx] *)

(** [classList.add(token)] and [classList.remove(token)] of a DOM token
    list. *)
Definition classListAdd (token : string) (classList : list string) : list string :=
  if existsb (String.eqb token) classList then classList else classList ++ [token].

Definition classListRemove (token : string) (classList : list string) : list string :=
  filter (fun t => negb (String.eqb t token)) classList.

(** [toggleTheme]; the handler returns the class list of the document
    element it leaves behind. *)
Definition toggleTheme (state : AppState) (classList : list string)
  : Handler (list string) :=
  emit (dispatch TOGGLE_THEME) ;;
  match theme state with
  | light => ret (classListAdd "dark" classList)
  | dark => ret (classListRemove "dark" classList)
  end.

(** The effect of [AppContent] on [state.theme]. *)
Definition themeEffect (state : AppState) (classList : list string) : list string :=
  match theme state with
  | dark => classListAdd "dark" classList
  | light => classListRemove "dark" classList
  end.

(* ------------------------------------------------------------------ *)
(** ** [ObjectHierarchy.tsx] *)

Definition colors : list string :=
  ["#ff6b6b"; "#4ecdc4"; "#45b7d1"; "#96ceb4";
   "#feca57"; "#ff9ff3"; "#54a0ff"; "#5f27cd"].

(** The string of a value of [SceneObject['type']]. *)
Definition typeName (type : ObjectType) : string :=
  match type with
  | cube => "cube"
  | sphere => "sphere"
  | cylinder => "cylinder"
  | plane => "plane"
  end.

(** The decimal string of a non-negative integer, as a template literal
    prints it. *)
Definition numberToString (n : N) : string :=
  NilEmpty.string_of_uint (N.to_uint n).

(** [c.toUpperCase()] of an ASCII character. *)
Definition toUpperCase (c : ascii) : ascii :=
  let n := nat_of_ascii c in
  if Nat.leb 97 n && Nat.leb n 122 then ascii_of_nat (n - 32) else c.

(** [s.charAt(0).toUpperCase() + s.slice(1)] *)
Definition capitalize (s : string) : string :=
  match s with
  | EmptyString => EmptyString
  | String c rest => String (toUpperCase c) rest
  end.

(** What [addObject] reads from outside: [Date.now()] and the four
    results of [Math.random()], in the order of the calls. *)
Record Environment : Type := mkEnvironment {
  now : N;
  randomColor : number;
  randomX : number;
  randomY : number;
  randomZ : number
}.

(** [(Math.random() - 0.5) * 4] *)
Definition randomOffset (random : number) : number :=
  ((random - / 2) * 4)%R.

(** Modelled from the spec: [new THREE.Mesh(geometry, material)] of the
    library, as far as [Mesh] goes: position (0,0,0), no rotation, scale
    (1,1,1), two fresh identity matrices, [matrixAutoUpdate] on, no
    parent.  The mesh is kept under the reference of its matrix. *)
Definition newMesh : Handler loc :=
  m <- M4.new ;;
  w <- M4.new ;;
  writeMesh m {| mesh_position := Vec.mk 0%R 0%R 0%R;
                 mesh_quaternion := Quaternion.mk 0%R 0%R 0%R 1%R;
                 mesh_scale := Vec.mk 1%R 1%R 1%R;
                 matrix := m; matrixWorld := w;
                 matrixAutoUpdate := true;
                 matrixWorldNeedsUpdate := false;
                 parent := None |} ;;
  ret m.

(** [mesh.position.set(x, y, z)] *)
Definition setMeshPosition (this : loc) (p : Vector3) : Handler unit :=
  o <- readMesh this ;;
  writeMesh this {| mesh_position := p;
                    mesh_quaternion := mesh_quaternion o;
                    mesh_scale := mesh_scale o;
                    matrix := matrix o; matrixWorld := matrixWorld o;
                    matrixAutoUpdate := matrixAutoUpdate o;
                    matrixWorldNeedsUpdate := matrixWorldNeedsUpdate o;
                    parent := parent o |}.

(** The object [addObject] builds; [colors[i]] outside the array (which
    a result of [Math.random] never reaches) is [undefined]. *)
Definition addObject (env : Environment) (state : AppState) (type : ObjectType)
  : Handler unit :=
  let id := String.append (typeName type)
              (String.append "_" (numberToString (now env))) in
  let color :=
    nth (Z.to_nat (Zfloor (randomColor env * INR (List.length colors))))
        colors "undefined" in
  mesh <- newMesh ;;
  setMeshPosition mesh (Vec.mk (randomOffset (randomX env))
                               (randomOffset (randomY env))
                               (randomOffset (randomZ env))) ;;
  o <- readMesh mesh ;;
  cached <- M4.clone (matrix o) ;;
  let sceneObject :=
    {| so_id := id;
       so_name := String.append (capitalize (typeName type))
                    (String.append " "
                       (numberToString (N.of_nat (List.length (objects state) + 1))));
       so_type := type;
       so_mesh := mesh;
       so_position := mesh_position o;
       so_rotation := Euler.mk 0%R 0%R 0%R XYZ;
       so_scale := mesh_scale o;
       so_matrix := cached;
       so_color := color |} in
  emit (dispatch (ADD_OBJECT sceneObject)) ;;
  emit (dispatch (SELECT_OBJECT id)).

(* ------------------------------------------------------------------ *)
(** ** [ThreeJSViewport.tsx]: the effect that applies the transform *)




(* ------------------------------------------------------------------ *)
(** ** More of [MatrixPanel.tsx] and [AdvancedMatrixFeatures.tsx] *)

(** [matrix.elements], the array of sixteen numbers. *)
Definition elements (m : Matrix4.t) : list number :=
  [Matrix4.e0 m; Matrix4.e1 m; Matrix4.e2 m; Matrix4.e3 m;
   Matrix4.e4 m; Matrix4.e5 m; Matrix4.e6 m; Matrix4.e7 m;
   Matrix4.e8 m; Matrix4.e9 m; Matrix4.e10 m; Matrix4.e11 m;
   Matrix4.e12 m; Matrix4.e13 m; Matrix4.e14 m; Matrix4.e15 m].

(** [formatMatrix]: the two loops over [row] and [col]; an entry is the
    number its [toFixed(3)] string denotes. *)
Definition formatMatrix (m : Matrix4.t) : list (list number) :=
  map (fun row =>
         map (fun col =>
                let index := col * 4 + row in
                toFixed (nth index (elements m) 0%R) 3)
             (seq 0 4))
      (seq 0 4).

(** The helpers of [AdvancedMatrixFeatures.tsx] (the panel has the same
    three on [currentMatrix]). *)
Definition getMatrixTrace (matrix : loc) : Handler number :=
  v <- readMatrix matrix ;;
  ret (Matrix4.e0 v + Matrix4.e5 v + Matrix4.e10 v + Matrix4.e15 v)%R.

Definition isIdentity (matrix : loc) : Handler bool :=
  i <- M4.new ;;
  identity <- M4.identity i ;;
  M4.equals matrix identity.

Definition getMatrixNorm (matrix : loc) : Handler number :=
  v <- readMatrix matrix ;;
  ret (sqrt (fold_left (fun sum e => (sum + e * e)%R) (elements v) 0%R)).

(** [Matrix4.makeScale(x, y, z)] and [Matrix4.makeRotationY(theta)]. *)
Definition makeScale (x y z : number) : Matrix4.t :=
  Matrix4.set x 0 0 0
              0 y 0 0
              0 0 z 0
              0 0 0 1.


(** Modelled from the spec: the [THREE.Vector3] arithmetic behind
    [Matrix4.lookAt]. *)
Definition subVectors (a b : Vector3) : Vector3 :=
  Vec.mk (Vec.x a - Vec.x b) (Vec.y a - Vec.y b) (Vec.z a - Vec.z b)%R.

Definition crossVectors (a b : Vector3) : Vector3 :=
  Vec.mk (Vec.y a * Vec.z b - Vec.z a * Vec.y b)
         (Vec.z a * Vec.x b - Vec.x a * Vec.z b)
         (Vec.x a * Vec.y b - Vec.y a * Vec.x b)%R.

Definition lengthSq (v : Vector3) : number :=
  (Vec.x v * Vec.x v + Vec.y v * Vec.y v + Vec.z v * Vec.z v)%R.

(** [normalize()] is [divideScalar(this.length() || 1)]. *)
Definition normalize (v : Vector3) : Vector3 :=
  let l := sqrt (lengthSq v) in
  let d := if Matrix4.strictEq l 0 then 1%R else l in
  Vec.mk (Vec.x v * (1 / d)) (Vec.y v * (1 / d)) (Vec.z v * (1 / d))%R.

(** Modelled from the spec: [Matrix4.lookAt(eye, target, up)] of the
    library; it writes the nine entries of the rotation and leaves the
    other seven of the receiver. *)
Definition lookAt (this : Matrix4.t) (eye target up : Vector3) : Matrix4.t :=
  let z0 := subVectors eye target in
  let z1 := if Matrix4.strictEq (lengthSq z0) 0
            then Vec.mk (Vec.x z0) (Vec.y z0) 1%R else z0 in
  let z2 := normalize z1 in
  let x0 := crossVectors up z2 in
  let '(z3, x1) :=
    if Matrix4.strictEq (lengthSq x0) 0 then
      let z' := if Matrix4.strictEq (Rabs (Vec.z up)) 1
                then Vec.mk (Vec.x z2 + 1 / 10000) (Vec.y z2) (Vec.z z2)
                else Vec.mk (Vec.x z2) (Vec.y z2) (Vec.z z2 + 1 / 10000) in
      let z'' := normalize z' in
      (z'', crossVectors up z'')
    else (z2, x0) in
  let x2 := normalize x1 in
  let y0 := crossVectors z3 x2 in
  {| Matrix4.e0 := Vec.x x2; Matrix4.e4 := Vec.x y0; Matrix4.e8 := Vec.x z3;
     Matrix4.e1 := Vec.y x2; Matrix4.e5 := Vec.y y0; Matrix4.e9 := Vec.y z3;
     Matrix4.e2 := Vec.z x2; Matrix4.e6 := Vec.z y0; Matrix4.e10 := Vec.z z3;
     Matrix4.e3 := Matrix4.e3 this; Matrix4.e7 := Matrix4.e7 this;
     Matrix4.e11 := Matrix4.e11 this;
     Matrix4.e12 := Matrix4.e12 this; Matrix4.e13 := Matrix4.e13 this;
     Matrix4.e14 := Matrix4.e14 this; Matrix4.e15 := Matrix4.e15 this |}%R.

(** [customMatrix[k]], a number when the entry is there. *)
Definition customEntry (customMatrix : list (option number)) (k : nat)
  : option number :=
  match nth_error customMatrix k with
  | Some (Some v) => Some v
  | _ => None
  end.

(** The matrix [applyCustomMatrix] builds with [matrix.set(customMatrix[0],
    customMatrix[4], ...)], when the sixteen entries it reads are numbers. *)
Definition matrixOfCustom (c : list (option number)) : option Matrix4.t :=
  match customEntry c 0, customEntry c 4, customEntry c 8, customEntry c 12,
        customEntry c 1, customEntry c 5, customEntry c 9, customEntry c 13,
        customEntry c 2, customEntry c 6, customEntry c 10, customEntry c 14,
        customEntry c 3, customEntry c 7, customEntry c 11, customEntry c 15 with
  | Some c0, Some c4, Some c8, Some c12,
    Some c1, Some c5, Some c9, Some c13,
    Some c2, Some c6, Some c10, Some c14,
    Some c3, Some c7, Some c11, Some c15 =>
      Some (Matrix4.set c0 c4 c8 c12
                        c1 c5 c9 c13
                        c2 c6 c10 c14
                        c3 c7 c11 c15)
  | _, _, _, _, _, _, _, _, _, _, _, _, _, _, _, _ => None
  end.

(** [loadCurrentMatrix] *)
Definition loadCurrentMatrix (state : AppState) : Handler unit :=
  match selectedObject state with
  | None => ret tt
  | Some o =>
      v <- readMatrix (so_matrix o) ;;
      emit (setCustomMatrix (map Some (elements v)))
  end.

Section MatrixHandlers.

Variable decompose : Matrix4.t -> Vector3 * Quaternion.t * Vector3.
Variable setFromQuaternion : Quaternion.t -> Euler.t.

(** The steps shared by the handlers once the mesh matrix is written:
    [matrixAutoUpdate = false], [updateMatrixWorld(true)], and the
    dispatch of the decomposition of [source]. *)
Definition publishMatrix (o : SceneObject) (source : loc) : Handler unit :=
  Object3D.setMatrixAutoUpdate (so_mesh o) false ;;
  Object3D.updateMatrixWorld (so_mesh o) true ;;
  v <- readMatrix source ;;
  emit (dispatch (UPDATE_TRANSFORM (decomposedPayload decompose setFromQuaternion v))).

(** [handleMatrixUpdate(newMatrix)] *)
Definition handleMatrixUpdate (state : AppState) (newMatrix : loc) : Handler unit :=
  match selectedObject state with
  | None => ret tt
  | Some o =>
      mesh <- readMesh (so_mesh o) ;;
      M4.copy (matrix mesh) newMatrix ;;
      publishMatrix o newMatrix
  end.

(** [applyCustomMatrix]; [None] when an entry it reads is not a number,
    which the number model cannot follow. *)
Definition applyCustomMatrix (customMatrix : list (option number))
    (state : AppState) : option (Handler unit) :=
  match selectedObject state with
  | None => Some (ret tt)
  | Some o =>
      match matrixOfCustom customMatrix with
      | None => None
      | Some v =>
          Some (m <- M4.new ;;
                writeMatrix m v ;;
                mesh <- readMesh (so_mesh o) ;;
                M4.copy (matrix mesh) m ;;
                publishMatrix o m ;;
                emit (toast_success "Custom matrix applied"))
      end
  end.

(** [applyLookAtMatrix] *)
Definition applyLookAtMatrix (state : AppState) : Handler unit :=
  match selectedObject state with
  | None => ret tt
  | Some o =>
      mesh <- readMesh (so_mesh o) ;;
      let position := Vec.mk (Vec.x (mesh_position mesh)) (Vec.y (mesh_position mesh))
                             (Vec.z (mesh_position mesh)) in
      let target := Vec.mk 0%R 0%R 0%R in
      let up := Vec.mk 0%R 1%R 0%R in
      m <- M4.new ;;
      v <- readMatrix m ;;
      writeMatrix m (lookAt v position target up) ;;
      M4.copy (matrix mesh) m ;;
      publishMatrix o m ;;
      emit (toast_success "Look-at matrix applied")
  end.

(** The handlers of the buttons Rotate Y 45 degrees and Scale 2x: the
    mesh matrix is multiplied in place, decomposed and published, and
    [matrixAutoUpdate] is switched on again. *)
Definition multiplyMeshMatrix (factor : Matrix4.t) (message : string)
    (state : AppState) : Handler unit :=
  match selectedObject state with
  | None => ret tt
  | Some o =>
      f <- M4.new ;;
      writeMatrix f factor ;;
      mesh <- readMesh (so_mesh o) ;;
      M4.multiply (matrix mesh) f ;;
      publishMatrix o (matrix mesh) ;;
      Object3D.setMatrixAutoUpdate (so_mesh o) true ;;
      emit (toast_success message)
  end.


Definition scale2x (state : AppState) : Handler unit :=
  multiplyMeshMatrix (makeScale 2 2 2) "2x scale applied" state.

End MatrixHandlers.

(** [Quaternion.setFromEuler] for the six orders, [MathUtils.degToRad],
    and the two handlers of [AdvancedMatrixFeatures.tsx]. *)
Definition setFromEuler (x y z : number) (order : EulerOrder) : Quaternion.t :=
  let c1 := cos (x / 2) in let c2 := cos (y / 2) in let c3 := cos (z / 2) in
  let s1 := sin (x / 2) in let s2 := sin (y / 2) in let s3 := sin (z / 2) in
  match order with
  | XYZ => Quaternion.mk (s1 * c2 * c3 + c1 * s2 * s3) (c1 * s2 * c3 - s1 * c2 * s3)
                         (c1 * c2 * s3 + s1 * s2 * c3) (c1 * c2 * c3 - s1 * s2 * s3)
  | YXZ => Quaternion.mk (s1 * c2 * c3 + c1 * s2 * s3) (c1 * s2 * c3 - s1 * c2 * s3)
                         (c1 * c2 * s3 - s1 * s2 * c3) (c1 * c2 * c3 + s1 * s2 * s3)
  | ZXY => Quaternion.mk (s1 * c2 * c3 - c1 * s2 * s3) (c1 * s2 * c3 + s1 * c2 * s3)
                         (c1 * c2 * s3 + s1 * s2 * c3) (c1 * c2 * c3 - s1 * s2 * s3)
  | ZYX => Quaternion.mk (s1 * c2 * c3 - c1 * s2 * s3) (c1 * s2 * c3 + s1 * c2 * s3)
                         (c1 * c2 * s3 - s1 * s2 * c3) (c1 * c2 * c3 + s1 * s2 * s3)
  | YZX => Quaternion.mk (s1 * c2 * c3 + c1 * s2 * s3) (c1 * s2 * c3 + s1 * c2 * s3)
                         (c1 * c2 * s3 - s1 * s2 * c3) (c1 * c2 * c3 - s1 * s2 * s3)
  | XZY => Quaternion.mk (s1 * c2 * c3 - c1 * s2 * s3) (c1 * s2 * c3 - s1 * c2 * s3)
                         (c1 * c2 * s3 + s1 * s2 * c3) (c1 * c2 * c3 + s1 * s2 * s3)
  end%R.

Definition degToRad (degrees : number) : number := (degrees * (PI / 180))%R.

Section AdvancedHandlers.

Variable decompose : Matrix4.t -> Vector3 * Quaternion.t * Vector3.
Variable setFromQuaternion : Quaternion.t -> Euler.t.

(** The matrix both handlers compose: the position and scale decomposed
    from [currentMatrix], with the rotation given. *)
Definition recompose (current : Matrix4.t) (q : Quaternion.t) : Matrix4.t :=
  let '(position, _, scale) := decompose current in
  compose position q scale.

Definition applyQuaternion (state : AppState) (currentMatrix : loc)
    (quaternion : Quaternion.t) : Handler unit :=
  match selectedObject state with
  | None => ret tt
  | Some _ =>
      let quat := Quaternion.mk (Quaternion.x quaternion) (Quaternion.y quaternion)
                                (Quaternion.z quaternion) (Quaternion.w quaternion) in
      current <- readMatrix currentMatrix ;;
      newMatrix <- M4.new ;;
      writeMatrix newMatrix (recompose current quat) ;;
      handleMatrixUpdate decompose setFromQuaternion state newMatrix ;;
      emit (toast_success "Quaternion applied")
  end.

Definition applyEulerAngles (state : AppState) (currentMatrix : loc)
    (eulerOrder : EulerOrder) (x y z : number) : Handler unit :=
  match selectedObject state with
  | None => ret tt
  | Some _ =>
      current <- readMatrix currentMatrix ;;
      let newQuat := setFromEuler (degToRad x) (degToRad y) (degToRad z) eulerOrder in
      newMatrix <- M4.new ;;
      writeMatrix newMatrix (recompose current newQuat) ;;
      handleMatrixUpdate decompose setFromQuaternion state newMatrix ;;
      emit (toast_success
              (String.append "Euler angles ("
                 (String.append
                    (match eulerOrder with
                     | XYZ => "XYZ" | YZX => "YZX" | ZXY => "ZXY"
                     | XZY => "XZY" | YXZ => "YXZ" | ZYX => "ZYX"
                     end)
                    ") applied")))
  end.

End AdvancedHandlers.

Section EulerInputs.

Variable decompose : Matrix4.t -> Vector3 * Quaternion.t * Vector3.
Variable setFromQuaternion : Quaternion.t -> Euler.t.
Variable parseFloat : string -> option number.

(** The [onChange] of the three angle inputs of [AdvancedMatrixFeatures]:
    [angles = { x: 0, y: 0, z: 0 }; angles[axis] = value], applied when
    the value is a number. *)
Definition eulerInputChange (state : AppState) (currentMatrix : loc)
    (eulerOrder : EulerOrder) (axis : Axis.t) (value : string) : Handler unit :=
  match parseFloat value with
  | None => ret tt
  | Some value =>
      let angles := setAxis (Vec.mk 0%R 0%R 0%R) axis value in
      applyEulerAngles decompose setFromQuaternion state currentMatrix eulerOrder
        (Vec.x angles) (Vec.y angles) (Vec.z angles)
  end.

End EulerInputs.

(* ------------------------------------------------------------------ *)
(** ** Notions used in the further statements *)

(** No two objects of the list carry the same id. *)
Definition uniqueIds (state : AppState) : Prop :=
  NoDup (map so_id (objects state)).

(** The selected id, when there is one, is the id of an object. *)
Definition selectionValid (state : AppState) : Prop :=
  match selectedObjectId state with
  | None => True
  | Some id => exists o, In o (objects state) /\ so_id o = id
  end.

(** The mesh of an object owns two allocated matrices, distinct from
    each other. *)
Definition meshAllocated (s : Sys) (o : SceneObject) : Prop :=
  let mesh := meshes s (so_mesh o) in
  matrix mesh < next s /\ matrixWorld mesh < next s /\
  matrix mesh <> matrixWorld mesh.

(** One more sample object. *)
Definition samplePlane : SceneObject :=
  {| so_id := "plane_3"; so_name := "Plane 3"; so_type := plane; so_mesh := 6;
     so_position := Vec.mk 0%R 0%R 0%R;
     so_rotation := Euler.mk 0%R 0%R 0%R XYZ;
     so_scale := Vec.mk 1%R 1%R 1%R;
     so_matrix := 8; so_color := "#45b7d1" |}.

(** One event of a handler that returns a value: the value, and the
    state after the reducer has consumed the dispatched actions. *)
Definition handleReturning {A : Type} (h : Handler A) (state : AppState) (s : Sys)
  : A * AppState :=
  let r := h {| next := next s; matrices := matrices s;
                meshes := meshes s; effects := [] |} in
  (fst r, dispatchAll state (dispatched (effects (snd r)))).

(** A [customMatrix] of sixteen numbers, without hole. *)
Definition fullMatrix (c : list (option number)) : Prop :=
  List.length c = 16 /\ forall k, k < 16 -> customEntry c k <> None.

(** The object that a run of [addObject] hands to [ADD_OBJECT]. *)
Definition addedObject (env : Environment) (state : AppState) (type : ObjectType)
    (s : Sys) : option SceneObject :=
  match dispatched
          (effects (exec (addObject env state type)
                         {| next := next s; matrices := matrices s;
                            meshes := meshes s; effects := [] |})) with
  | ADD_OBJECT o :: _ => Some o
  | _ => None
  end.

(** The label [m{Math.floor(index / 4)}{index % 4}] over entry [index]
    of the Custom tab: its two digits. *)
Definition customLabel (index : nat) : nat * nat :=
  (index / 4, index mod 4).

(** A sample environment of [addObject]. *)
Definition sampleEnvironment : Environment :=
  {| now := 1700000000000%N;
     randomColor := (3 / 8)%R;
     randomX := (/ 2)%R; randomY := 0%R; randomZ := (3 / 4)%R |}.

(* ================================================================== *)
(** * Verification *)

(** ** The reducer *)

Lemma findObject_first (id : string) (objs : list SceneObject) (o : SceneObject) :
  findObject id objs = Some o ->
  exists l1 l2, objs = l1 ++ o :: l2 /\ so_id o = id /\
                forall o', In o' l1 -> so_id o' <> id.
Proof.
  unfold findObject.
  induction objs as [| a objs IH]; simpl; [discriminate |].
  destruct (String.eqb (so_id a) id) eqn:E.
  - intros [= ->]. exists [], objs. repeat split.
    + now apply String.eqb_eq.
    + intros o' [].
  - intros H. destruct (IH H) as (l1 & l2 & -> & Hid & Hl1).
    exists (a :: l1), l2. repeat split; trivial.
    intros o' [<- | Hin]; [now apply String.eqb_neq | now apply Hl1].
Qed.

Lemma findObject_present (id : string) (objs : list SceneObject) :
  (exists o, In o objs /\ so_id o = id) ->
  exists o, findObject id objs = Some o.
Proof.
  intros (o & Hin & Hid). unfold findObject.
  destruct (find _ objs) as [o' |] eqn:E; [now exists o' |].
  apply (find_none _ _ E) in Hin. rewrite Hid, String.eqb_refl in Hin.
  discriminate.
Qed.

Lemma findObject_absent (id : string) (objs : list SceneObject) :
  (forall o, In o objs -> so_id o <> id) -> findObject id objs = None.
Proof.
  intros H. unfold findObject.
  destruct (find _ objs) as [o |] eqn:E; [| reflexivity].
  apply find_some in E as [Hin Heq]. apply String.eqb_eq in Heq.
  now destruct (H o Hin).
Qed.

(** C1. For an id carried by some object of [state.objects],
    [SELECT_OBJECT] makes that id the selected one and copies into
    [state.transform], component by component, the cached position,
    rotation and scale of the object with that id (the one [find]
    returns: the first in the list carrying it). *)
Theorem select_object_mirrors_object (state : AppState) (id : string) :
  (exists o, In o (objects state) /\ so_id o = id) ->
  let state' := appReducer state (SELECT_OBJECT id) in
  selectedObjectId state' = Some id /\
  exists o l1 l2,
    objects state = l1 ++ o :: l2 /\ so_id o = id /\
    (forall o', In o' l1 -> so_id o' <> id) /\
    Vec.x (position (transform state')) = Vec.x (so_position o) /\
    Vec.y (position (transform state')) = Vec.y (so_position o) /\
    Vec.z (position (transform state')) = Vec.z (so_position o) /\
    Vec.x (rotation (transform state')) = Euler.x (so_rotation o) /\
    Vec.y (rotation (transform state')) = Euler.y (so_rotation o) /\
    Vec.z (rotation (transform state')) = Euler.z (so_rotation o) /\
    Vec.x (scale (transform state')) = Vec.x (so_scale o) /\
    Vec.y (scale (transform state')) = Vec.y (so_scale o) /\
    Vec.z (scale (transform state')) = Vec.z (so_scale o).
Proof.
  intros Hpresent state'. split; [reflexivity |].
  destruct (findObject_present _ Hpresent) as [o Hfind].
  destruct (findObject_first _ _ Hfind) as (l1 & l2 & Hsplit & Hid & Hfirst).
  exists o, l1, l2. subst state'. simpl. rewrite Hfind. simpl.
  repeat split; trivial.
Qed.

Lemma select_object_mirrors_object_witness :
  (exists o, In o (objects sampleState) /\ so_id o = "sphere_2"%string) /\
  let state' := appReducer sampleState (SELECT_OBJECT "sphere_2") in
  selectedObjectId state' = Some "sphere_2"%string /\
  exists o l1 l2,
    objects sampleState = l1 ++ o :: l2 /\ so_id o = "sphere_2"%string /\
    (forall o', In o' l1 -> so_id o' <> "sphere_2"%string) /\
    Vec.x (position (transform state')) = Vec.x (so_position o) /\
    Vec.y (position (transform state')) = Vec.y (so_position o) /\
    Vec.z (position (transform state')) = Vec.z (so_position o) /\
    Vec.x (rotation (transform state')) = Euler.x (so_rotation o) /\
    Vec.y (rotation (transform state')) = Euler.y (so_rotation o) /\
    Vec.z (rotation (transform state')) = Euler.z (so_rotation o) /\
    Vec.x (scale (transform state')) = Vec.x (so_scale o) /\
    Vec.y (scale (transform state')) = Vec.y (so_scale o) /\
    Vec.z (scale (transform state')) = Vec.z (so_scale o).
Proof.
  assert (H : exists o, In o (objects sampleState) /\ so_id o = "sphere_2"%string).
  { exists sampleSphere. split; [right; left; reflexivity | reflexivity]. }
  split; [exact H | exact (select_object_mirrors_object sampleState H)].
Defined.

(** When ids are unique, the object mirrored is any object of the list
    one selects by its id. *)
Lemma select_object_unique_id (state : AppState) (o : SceneObject) :
  In o (objects state) ->
  (forall o', In o' (objects state) -> so_id o' = so_id o -> o' = o) ->
  transform (appReducer state (SELECT_OBJECT (so_id o))) = transformOf o.
Proof.
  intros Hin Huniq. simpl.
  destruct (@findObject_present (so_id o) (objects state)) as [o' Hfind].
  { now exists o. }
  rewrite Hfind. f_equal.
  unfold findObject in Hfind. apply find_some in Hfind as [Hin' Heq].
  apply Huniq; [assumption | now apply String.eqb_eq].
Qed.

Lemma filter_Subsequence {A : Type} (f : A -> bool) (l : list A) :
  Subsequence (filter f l) l.
Proof.
  induction l as [| a l IH]; simpl.
  - constructor.
  - destruct (f a); now constructor.
Qed.

(** C5. [REMOVE_OBJECT] keeps exactly the objects whose id differs from
    the payload, in their original order; the selection is cleared when
    it was the removed id and kept otherwise; transform, viewport
    settings and theme are untouched. *)
Theorem remove_object_spec (state : AppState) (id : string) :
  let state' := appReducer state (REMOVE_OBJECT id) in
  objects state' = filter (fun obj => negb (String.eqb (so_id obj) id)) (objects state) /\
  (forall o, In o (objects state') <-> In o (objects state) /\ so_id o <> id) /\
  Subsequence (objects state') (objects state) /\
  (selectedObjectId state = Some id -> selectedObjectId state' = None) /\
  (selectedObjectId state <> Some id ->
     selectedObjectId state' = selectedObjectId state) /\
  transform state' = transform state /\
  viewportSettings state' = viewportSettings state /\
  theme state' = theme state.
Proof.
  intros state'. subst state'. simpl.
  split; [reflexivity |]. split; [| split; [| split; [| split]]].
  - intros o. rewrite filter_In, negb_true_iff, String.eqb_neq. tauto.
  - apply filter_Subsequence.
  - intros ->. simpl. now rewrite String.eqb_refl.
  - intros Hne. destruct (selectedObjectId state) as [sel |]; simpl; trivial.
    destruct (String.eqb sel id) eqn:E; trivial.
    apply String.eqb_eq in E. now subst.
  - repeat split.
Qed.

(** C6. [SELECT_OBJECT] with an id that no object carries still records
    that id as the selection and resets the transform to position
    (0,0,0), rotation (0,0,0), scale (1,1,1); the selected id then names
    no object of the list. *)
Theorem select_missing_object (state : AppState) (id : string) :
  (forall o, In o (objects state) -> so_id o <> id) ->
  let state' := appReducer state (SELECT_OBJECT id) in
  selectedObjectId state' = Some id /\
  position (transform state') = Vec.mk 0%R 0%R 0%R /\
  rotation (transform state') = Vec.mk 0%R 0%R 0%R /\
  scale (transform state') = Vec.mk 1%R 1%R 1%R /\
  objects state' = objects state /\
  (forall o, In o (objects state') -> Some (so_id o) <> selectedObjectId state') /\
  selectedObject state' = None.
Proof.
  intros Habsent state'. subst state'.
  unfold selectedObject. simpl. rewrite (findObject_absent _ Habsent). simpl.
  repeat split; trivial.
  intros o Hin [= Heq]. exact (Habsent o Hin Heq).
Qed.

Lemma select_missing_object_witness :
  (forall o, In o (objects sampleState) -> so_id o <> "plane_9") /\
  let state' := appReducer sampleState (SELECT_OBJECT "plane_9") in
  selectedObjectId state' = Some "plane_9" /\
  position (transform state') = Vec.mk 0%R 0%R 0%R /\
  rotation (transform state') = Vec.mk 0%R 0%R 0%R /\
  scale (transform state') = Vec.mk 1%R 1%R 1%R /\
  objects state' = objects sampleState /\
  (forall o, In o (objects state') -> Some (so_id o) <> selectedObjectId state') /\
  selectedObject state' = None.
Proof.
  assert (H : forall o, In o (objects sampleState) -> so_id o <> "plane_9").
  { intros o [<- | [<- | []]]; discriminate. }
  split; [exact H | exact (select_missing_object sampleState H)].
Defined.


(** ** The viewport toggles *)

Lemma press_eq (toggle : AppState -> Handler unit) (state : AppState) (s : Sys)
    (a : AppAction) :
  (forall s0, toggle state s0 = emit (dispatch a) s0) ->
  press toggle state s = appReducer state a.
Proof.
  intros H. unfold press, handle, exec. rewrite H. reflexivity.
Qed.

Lemma press_toggleGrid (state : AppState) (s : Sys) :
  press toggleGrid state s =
  appReducer state (UPDATE_VIEWPORT_SETTINGS
    {| p_showGrid := Some (negb (showGrid (viewportSettings state)));
       p_showAxes := None; p_wireframe := None; p_projection := None |}).
Proof. now apply press_eq. Qed.

Lemma press_toggleAxes (state : AppState) (s : Sys) :
  press toggleAxes state s =
  appReducer state (UPDATE_VIEWPORT_SETTINGS
    {| p_showGrid := None;
       p_showAxes := Some (negb (showAxes (viewportSettings state)));
       p_wireframe := None; p_projection := None |}).
Proof. now apply press_eq. Qed.

Lemma press_toggleWireframe (state : AppState) (s : Sys) :
  press toggleWireframe state s =
  appReducer state (UPDATE_VIEWPORT_SETTINGS
    {| p_showGrid := None; p_showAxes := None;
       p_wireframe := Some (negb (wireframe (viewportSettings state)));
       p_projection := None |}).
Proof. now apply press_eq. Qed.

Lemma press_toggleProjection (state : AppState) (s : Sys) :
  press toggleProjection state s =
  appReducer state (UPDATE_VIEWPORT_SETTINGS
    {| p_showGrid := None; p_showAxes := None; p_wireframe := None;
       p_projection := Some (match projection (viewportSettings state) with
                             | perspective => orthographic
                             | orthographic => perspective
                             end) |}).
Proof. now apply press_eq. Qed.

(** C7. Each of the four toggles changes its own field of the viewport
    settings and nothing else in the state; pressing the same toggle
    twice gives back the viewport settings one started from; the
    projection toggle alternates between perspective and orthographic. *)
Theorem viewport_toggles (state : AppState) (s s' : Sys) :
  let v := viewportSettings state in
  (let st := press toggleGrid state s in
   viewportSettings st =
     {| showGrid := negb (showGrid v); showAxes := showAxes v;
        wireframe := wireframe v; projection := projection v |} /\
   sameOutsideViewport state st /\
   viewportSettings (press toggleGrid st s') = v) /\
  (let st := press toggleAxes state s in
   viewportSettings st =
     {| showGrid := showGrid v; showAxes := negb (showAxes v);
        wireframe := wireframe v; projection := projection v |} /\
   sameOutsideViewport state st /\
   viewportSettings (press toggleAxes st s') = v) /\
  (let st := press toggleWireframe state s in
   viewportSettings st =
     {| showGrid := showGrid v; showAxes := showAxes v;
        wireframe := negb (wireframe v); projection := projection v |} /\
   sameOutsideViewport state st /\
   viewportSettings (press toggleWireframe st s') = v) /\
  (let st := press toggleProjection state s in
   viewportSettings st =
     {| showGrid := showGrid v; showAxes := showAxes v;
        wireframe := wireframe v;
        projection := match projection v with
                      | perspective => orthographic
                      | orthographic => perspective
                      end |} /\
   projection (viewportSettings st) <> projection v /\
   sameOutsideViewport state st /\
   viewportSettings (press toggleProjection st s') = v).
Proof.
  intros v. subst v.
  rewrite !press_toggleGrid, !press_toggleAxes, !press_toggleWireframe,
          !press_toggleProjection.
  destruct state as [objs sel tr [g a w p] th]. unfold sameOutsideViewport. simpl.
  rewrite !negb_involutive.
  repeat split; destruct p; try reflexivity; discriminate.
Qed.

(** ** The store *)

Lemma upd_eq {A : Type} (f : loc -> A) (l : loc) (v : A) : upd f l v l = v.
Proof. unfold upd. now rewrite Nat.eqb_refl. Qed.

Lemma upd_neq {A : Type} (f : loc -> A) (l l' : loc) (v : A) :
  l' <> l -> upd f l v l' = f l'.
Proof. intros H. unfold upd. now apply Nat.eqb_neq in H as ->. Qed.

Lemma upd_below {A : Type} (f : loc -> A) (n l : loc) (v : A) :
  l < n -> upd f n v l = f l.
Proof. intros H. apply upd_neq. lia. Qed.

Ltac simpl_upd := repeat (rewrite upd_eq || (rewrite upd_neq by lia)).

Lemma bind_run {A B : Type} (c : Handler A) (k : A -> Handler B) (s : Sys) :
  bind c k s = k (fst (c s)) (snd (c s)).
Proof. unfold bind. now destruct (c s). Qed.

Lemma strictEq_true_iff (a b : number) : Matrix4.strictEq a b = true <-> a = b.
Proof.
  unfold Matrix4.strictEq. destruct (Req_dec_T a b); split; intros; easy.
Qed.

Lemma strictEq_false_iff (a b : number) : Matrix4.strictEq a b = false <-> a <> b.
Proof.
  unfold Matrix4.strictEq. destruct (Req_dec_T a b); split; intros; easy.
Qed.

Lemma Matrix4_ext a0 a1 a2 a3 a4 a5 a6 a7 a8 a9 a10 a11 a12 a13 a14 a15
    b0 b1 b2 b3 b4 b5 b6 b7 b8 b9 b10 b11 b12 b13 b14 b15 :
  a0 = b0 -> a1 = b1 -> a2 = b2 -> a3 = b3 ->
  a4 = b4 -> a5 = b5 -> a6 = b6 -> a7 = b7 ->
  a8 = b8 -> a9 = b9 -> a10 = b10 -> a11 = b11 ->
  a12 = b12 -> a13 = b13 -> a14 = b14 -> a15 = b15 ->
  Matrix4.mk a0 a1 a2 a3 a4 a5 a6 a7 a8 a9 a10 a11 a12 a13 a14 a15 =
  Matrix4.mk b0 b1 b2 b3 b4 b5 b6 b7 b8 b9 b10 b11 b12 b13 b14 b15.
Proof. intros; subst; reflexivity. Qed.

Lemma equals_true_iff (m n : Matrix4.t) : Matrix4.equals m n = true <-> m = n.
Proof.
  unfold Matrix4.equals. rewrite !andb_true_iff, !strictEq_true_iff.
  destruct m, n; simpl. split.
  - intros H. decompose [and] H. now apply Matrix4_ext.
  - intros [= -> -> -> -> -> -> -> -> -> -> -> -> -> -> -> ->]. repeat split.
Qed.

(** ** The orthogonality check *)


(** ** The matrix operations of the panel *)

Lemma setMatrixAutoUpdate_run (this : loc) (b : bool) (s : Sys) :
  let o := meshes s this in
  Object3D.setMatrixAutoUpdate this b s =
  (tt, {| next := next s; matrices := matrices s;
          meshes := upd (meshes s) this
                      {| mesh_position := mesh_position o;
                         mesh_quaternion := mesh_quaternion o;
                         mesh_scale := mesh_scale o;
                         matrix := matrix o; matrixWorld := matrixWorld o;
                         matrixAutoUpdate := b;
                         matrixWorldNeedsUpdate := matrixWorldNeedsUpdate o;
                         parent := parent o |};
          effects := effects s |}).
Proof. reflexivity. Qed.

(** [updateMatrixWorld(true)] of a mesh whose [matrixAutoUpdate] is off
    writes the world matrix and clears [matrixWorldNeedsUpdate]. *)
Lemma updateMatrixWorld_manual (this : loc) (s : Sys) :
  matrixAutoUpdate (meshes s this) = false ->
  let o := meshes s this in
  exists W,
    Object3D.updateMatrixWorld this true s =
    (tt, {| next := next s;
            matrices := upd (matrices s) (matrixWorld o) W;
            meshes := upd (meshes s) this
                        {| mesh_position := mesh_position o;
                           mesh_quaternion := mesh_quaternion o;
                           mesh_scale := mesh_scale o;
                           matrix := matrix o; matrixWorld := matrixWorld o;
                           matrixAutoUpdate := false;
                           matrixWorldNeedsUpdate := false;
                           parent := parent o |};
            effects := effects s |}).
Proof.
  intros Hoff o. subst o.
  unfold Object3D.updateMatrixWorld.
  rewrite bind_run. cbn [readMesh fst snd].
  rewrite Hoff, bind_run. cbn [ret fst snd].
  rewrite bind_run. cbn [readMesh fst snd].
  rewrite orb_true_r, bind_run.
  destruct (parent (meshes s this)) as [parentWorld |] eqn:Hparent.
  - exists (Matrix4.multiplyMatrices (matrices s parentWorld)
                                     (matrices s (matrix (meshes s this)))).
    cbn. rewrite Hoff, Hparent. reflexivity.
  - exists (matrices s (matrix (meshes s this))).
    cbn. rewrite Hoff, Hparent. reflexivity.
Qed.


Lemma determinant_multiplyMatrices (a b : Matrix4.t) :
  Matrix4.determinant (Matrix4.multiplyMatrices a b) =
  (Matrix4.determinant a * Matrix4.determinant b)%R.
Proof.
  destruct a, b. unfold Matrix4.determinant, Matrix4.multiplyMatrices.
  cbn -[Rmult Rplus Rminus Ropp]. ring.
Qed.

Lemma determinant_identity : Matrix4.determinant Matrix4.identity = 1%R.
Proof. unfold Matrix4.determinant, Matrix4.identity, Matrix4.set. cbn. ring. Qed.

Lemma determinant_zero : Matrix4.determinant Matrix4.zero = 0%R.
Proof. unfold Matrix4.determinant, Matrix4.zero, Matrix4.set. cbn. ring. Qed.

(** [invert] of a singular matrix is the zero matrix. *)
Lemma invert_singular (m : Matrix4.t) :
  Matrix4.determinant m = 0%R -> Matrix4.invert m = Matrix4.zero.
Proof.
  intros H. destruct m. unfold Matrix4.invert, Matrix4.determinant in *.
  cbn [Matrix4.e0 Matrix4.e1 Matrix4.e2 Matrix4.e3 Matrix4.e4 Matrix4.e5
       Matrix4.e6 Matrix4.e7 Matrix4.e8 Matrix4.e9 Matrix4.e10 Matrix4.e11
       Matrix4.e12 Matrix4.e13 Matrix4.e14 Matrix4.e15] in *.
  match goal with
  | |- (if Matrix4.strictEq ?d _ then _ else _) = _ =>
      replace (Matrix4.strictEq d 0%R) with true; [reflexivity |]
  end.
  symmetry. apply strictEq_true_iff. rewrite <- H. ring.
Qed.

(** [invert] of a regular matrix is its inverse, on both sides. *)
Lemma invert_regular (m : Matrix4.t) :
  Matrix4.determinant m <> 0%R ->
  Matrix4.multiplyMatrices (Matrix4.invert m) m = Matrix4.identity /\
  Matrix4.multiplyMatrices m (Matrix4.invert m) = Matrix4.identity.
Proof.
  intros H. destruct m.
  unfold Matrix4.invert, Matrix4.multiplyMatrices, Matrix4.identity,
         Matrix4.set, Matrix4.determinant in *.
  cbn [Matrix4.e0 Matrix4.e1 Matrix4.e2 Matrix4.e3 Matrix4.e4 Matrix4.e5
       Matrix4.e6 Matrix4.e7 Matrix4.e8 Matrix4.e9 Matrix4.e10 Matrix4.e11
       Matrix4.e12 Matrix4.e13 Matrix4.e14 Matrix4.e15] in *.
  match goal with
  | |- context [Matrix4.strictEq ?d _] => set (D := d) in *
  end.
  assert (HD : D <> 0%R).
  { intro E. apply H. transitivity D; [unfold D; ring | exact E]. }
  apply strictEq_false_iff in HD as HD'. rewrite HD'.
  cbn [Matrix4.e0 Matrix4.e1 Matrix4.e2 Matrix4.e3 Matrix4.e4 Matrix4.e5
       Matrix4.e6 Matrix4.e7 Matrix4.e8 Matrix4.e9 Matrix4.e10 Matrix4.e11
       Matrix4.e12 Matrix4.e13 Matrix4.e14 Matrix4.e15].
  assert (Hk : 1%R = (D * (1 / D))%R) by (field; exact HD).
  generalize dependent (1 / D)%R. intros k Hk. clear H HD HD'.
  split; apply Matrix4_ext; first [ring | rewrite Hk; unfold D; ring].
Qed.

Lemma determinant_invert_regular (m : Matrix4.t) :
  Matrix4.determinant m <> 0%R ->
  Matrix4.determinant (Matrix4.invert m) <> 0%R.
Proof.
  intros H E. destruct (invert_regular H) as [Hleft _].
  apply (f_equal Matrix4.determinant) in Hleft.
  rewrite determinant_multiplyMatrices, determinant_identity, E in Hleft.
  lra.
Qed.

Lemma determinant_invert_singular (m : Matrix4.t) :
  Matrix4.determinant m = 0%R ->
  Matrix4.determinant (Matrix4.invert m) = 0%R.
Proof. intros H. rewrite (invert_singular H). apply determinant_zero. Qed.

Section InvertMatrix.

Variable decompose : Matrix4.t -> Vector3 * Quaternion.t * Vector3.
Variable setFromQuaternion : Quaternion.t -> Euler.t.

(** What [invertMatrix] leaves behind, for a selected object whose mesh
    matrix and world matrix are two allocated objects. *)
Lemma invertMatrix_run (state : AppState) (s : Sys) (o : SceneObject) :
  selectedObject state = Some o ->
  let mesh := meshes s (so_mesh o) in
  matrix mesh < next s ->
  matrixWorld mesh < next s ->
  matrix mesh <> matrixWorld mesh ->
  let M := matrices s (matrix mesh) in
  let s' := exec (invertMatrix decompose setFromQuaternion state) s in
  (Matrix4.determinant M = 0%R ->
   effects s' =
     effects s ++ [toast_error "Matrix is not invertible (determinant is 0)"] /\
   (forall l, l < next s -> matrices s' l = matrices s l) /\
   (forall l, meshes s' l = meshes s l)) /\
  (Matrix4.determinant M <> 0%R ->
   effects s' =
     effects s ++
     [dispatch (UPDATE_TRANSFORM
                  (decomposedPayload decompose setFromQuaternion (Matrix4.invert M)));
      toast_success "Matrix inverted"] /\
   matrix (meshes s' (so_mesh o)) = matrix mesh /\
   matrices s' (matrix mesh) = Matrix4.invert M).
Proof.
  intros Hsel mesh Hm Hw Hmw M s'. subst s'.
  unfold exec, invertMatrix. rewrite Hsel.
  repeat (rewrite bind_run;
          cbn [M4.new M4.copy M4.invert M4.determinant readMesh fst snd
               writeMatrix readMatrix ret bind next matrices meshes effects]).
  fold mesh. simpl_upd. fold M.
  split; intros Hdet.
  - apply determinant_invert_singular in Hdet as Hinv.
    apply strictEq_true_iff in Hinv. rewrite Hinv. cbn.
    repeat split. intros l Hl. now simpl_upd.
  - apply determinant_invert_regular in Hdet as Hinv.
    apply strictEq_false_iff in Hinv. rewrite Hinv.
    repeat (rewrite bind_run;
            cbn [M4.copy readMesh fst snd writeMatrix readMatrix ret bind
                 next matrices meshes effects]).
    rewrite setMatrixAutoUpdate_run. cbn [fst snd].
    match goal with
    | |- context [Object3D.updateMatrixWorld ?l true ?s1] =>
        destruct (@updateMatrixWorld_manual l s1) as [W ->];
        [cbn; now rewrite upd_eq |]
    end.
    cbn [fst snd next matrices meshes effects emit].
    rewrite !upd_eq. cbn [matrix matrixWorld]. fold mesh.
    simpl_upd. rewrite <- app_assoc. repeat split.
Qed.

End InvertMatrix.

Section InvertMatrixClaim.

Variable decompose : Matrix4.t -> Vector3 * Quaternion.t * Vector3.
Variable setFromQuaternion : Quaternion.t -> Euler.t.


End InvertMatrixClaim.

Lemma sampleMatrix_determinant (sx sy sz : number) :
  Matrix4.determinant (sampleMatrix sx sy sz) = (sx * sy * sz)%R.
Proof. unfold Matrix4.determinant, sampleMatrix, compose. cbn. ring. Qed.


(** ** Degrees and radians *)

Lemma degrees_roundtrip (d : number) : ((((d * PI) / 180) * 180) / PI)%R = d.
Proof. field. apply PI_neq0. Qed.

Lemma pow10_pos (n : nat) : (0 < 10 ^ n)%R.
Proof. apply pow_lt. lra. Qed.

(** [toFixed] is within half a unit of the last digit. *)
Lemma toFixed_close (x : number) (f : nat) :
  (Rabs (toFixed x f - x) <= / 2 / 10 ^ f)%R.
Proof.
  pose proof (pow10_pos f) as Hp.
  assert (Hhalf : (0 <= / 2 / 10 ^ f)%R).
  { apply Rlt_le, Rdiv_lt_0_compat; lra. }
  assert (Hmag : forall a, (0 <= a)%R ->
            (Rabs (IZR (Zfloor (a * 10 ^ f + / 2)) / 10 ^ f - a)
             <= / 2 / 10 ^ f)%R).
  { intros a Ha. destruct (Zfloor_bound (a * 10 ^ f + / 2)) as [Hlo Hhi].
    set (n := IZR (Zfloor (a * 10 ^ f + / 2))) in *.
    replace (n / 10 ^ f - a)%R with ((n - a * 10 ^ f) / 10 ^ f)%R
      by (field; lra).
    unfold Rdiv at 1. rewrite Rabs_mult, (Rabs_pos_eq (/ 10 ^ f)).
    - apply Rmult_le_compat_r.
      + apply Rlt_le, Rinv_0_lt_compat, Hp.
      + apply Rabs_le. lra.
    - apply Rlt_le, Rinv_0_lt_compat, Hp. }
  unfold toFixed. destruct (Rlt_dec x 0) as [Hneg | Hpos].
  - destruct (Rle_dec (10 ^ 21) (- x)).
    + replace (- - x - x)%R with 0%R by ring. now rewrite Rabs_R0.
    + specialize (Hmag (- x)%R ltac:(lra)).
      rewrite <- Rabs_Ropp.
      match goal with
      | |- (Rabs ?e <= _)%R =>
          replace e with (IZR (Zfloor (- x * 10 ^ f + / 2)) / 10 ^ f - - x)%R
            by ring
      end.
      exact Hmag.
  - destruct (Rle_dec (10 ^ 21) x).
    + replace (x - x)%R with 0%R by ring. now rewrite Rabs_R0.
    + apply Hmag. lra.
Qed.

(** [toFixed] returns its argument exactly on the numbers that have at
    most the requested digits (and on those it prints in full). *)
Lemma toFixed_exact_iff (x : number) (f : nat) :
  toFixed x f = x <->
  (10 ^ 21 <= Rabs x)%R \/ exists n : Z, x = (IZR n / 10 ^ f)%R.
Proof.
  pose proof (pow10_pos f) as Hp.
  assert (Hfloor : forall n : Z, Zfloor (IZR n + / 2) = n).
  { intros n. apply Zfloor_eq. lra. }
  unfold toFixed. destruct (Rlt_dec x 0) as [Hneg | Hpos].
  - rewrite (Rabs_left x Hneg). destruct (Rle_dec (10 ^ 21) (- x)) as [Hbig | Hsmall].
    + split; [now left | intros _; ring].
    + split.
      * intros H. right. exists (- Zfloor (- x * 10 ^ f + / 2))%Z.
        rewrite opp_IZR. lra.
      * intros [Hbig | [n ->]]; [contradiction |].
        replace (- (IZR n / 10 ^ f) * 10 ^ f + / 2)%R with (IZR (- n) + / 2)%R
          by (rewrite opp_IZR; field; lra).
        rewrite Hfloor, opp_IZR. field. lra.
  - assert (Hx : (0 <= x)%R) by lra. rewrite (Rabs_pos_eq x Hx).
    destruct (Rle_dec (10 ^ 21) x) as [Hbig | Hsmall].
    + split; [now left | reflexivity].
    + split.
      * intros H. right. exists (Zfloor (x * 10 ^ f + / 2)). lra.
      * intros [Hbig | [n ->]]; [contradiction |].
        replace (IZR n / 10 ^ f * 10 ^ f + / 2)%R with (IZR n + / 2)%R
          by (field; lra).
        now rewrite Hfloor.
Qed.

Lemma handle_dispatch (state : AppState) (s : Sys) (a : AppAction) :
  fst (handle (emit (dispatch a)) state s) = appReducer state a.
Proof. reflexivity. Qed.

Lemma getAxis_setAxis (v : Vec.t) (axis : Axis.t) (n : number) :
  getAxis (setAxis v axis n) axis = n.
Proof. now destruct axis. Qed.

Section ParsedInput.

Variable parseFloat : string -> option number.

(** C4 (amended). A degree value [d] set through the rotation slider or
    typed into the numeric input is stored as [d * PI / 180]; the slider
    then shows the stored value times [180 / PI], which in exact
    arithmetic is [d] again; the numeric input shows that value through
    [toFixed(1)], a number within 0.05 of [d] that is [d] itself exactly
    when [d] has at most one decimal (or is printed in full, from 10^21
    on). *)
Theorem rotation_degrees_radians (state : AppState) (axis : Axis.t)
    (value : SliderValue) (str : string) (d : number) (s : Sys) :
  value0 value = d ->
  parseFloat str = Some d ->
  let viaSlider := fst (handle (handleRotationChange state axis value) state s) in
  let viaInput :=
    fst (handle (handleInputChange parseFloat state Key.rotation axis str) state s) in
  getAxis (rotation (transform viaSlider)) axis = (d * PI / 180)%R /\
  getAxis (rotation (transform viaInput)) axis = (d * PI / 180)%R /\
  rotationSliderValue viaSlider axis = d /\
  rotationSliderValue viaInput axis = d /\
  rotationInputValue viaSlider axis = toFixed d 1 /\
  rotationInputValue viaInput axis = toFixed d 1 /\
  (Rabs (toFixed d 1 - d) <= / 20)%R /\
  (toFixed d 1 = d <->
   (10 ^ 21 <= Rabs d)%R \/ exists n : Z, d = (IZR n / 10)%R).
Proof.
  intros Hvalue Hparse viaSlider viaInput.
  assert (Hslider : getAxis (rotation (transform viaSlider)) axis
                    = (d * PI / 180)%R).
  { subst viaSlider. unfold handleRotationChange.
    rewrite handle_dispatch, Hvalue. cbn. apply getAxis_setAxis. }
  assert (Hinput : getAxis (rotation (transform viaInput)) axis
                   = (d * PI / 180)%R).
  { subst viaInput. unfold handleInputChange.
    rewrite Hparse, handle_dispatch. cbn. apply getAxis_setAxis. }
  unfold rotationSliderValue, rotationInputValue.
  rewrite Hslider, Hinput, degrees_roundtrip.
  repeat split.
  - pose proof (toFixed_close d 1) as H.
    replace (/ 2 / 10 ^ 1)%R with (/ 20)%R in H by (simpl; field). exact H.
  - intros H. apply (toFixed_exact_iff d 1) in H.
    now replace (10 ^ 1)%R with 10%R in H by (simpl; ring).
  - intros H. apply (toFixed_exact_iff d 1).
    now replace (10 ^ 1)%R with 10%R by (simpl; ring).
Qed.

(** C10. When the string does not parse to a number, [handleInputChange]
    dispatches nothing, so the transform (the whole state) is unchanged,
    and [handleCustomMatrixChange] does not call [setCustomMatrix], so
    the custom matrix is unchanged; neither touches the store. *)
Theorem nan_input_ignored (state : AppState) (type : Key.t) (axis : Axis.t)
    (customMatrix : list (option number)) (index : nat) (value : string)
    (s : Sys) :
  parseFloat value = None ->
  let s1 := exec (handleInputChange parseFloat state type axis value) s in
  let state' :=
    fst (handle (handleInputChange parseFloat state type axis value) state s) in
  let s2 := exec (handleCustomMatrixChange parseFloat customMatrix index value) s in
  s1 = s /\
  dispatched (effects s1) = dispatched (effects s) /\
  state' = state /\
  transform state' = transform state /\
  s2 = s /\
  nextCustomMatrix customMatrix
    (effects (exec (handleCustomMatrixChange parseFloat customMatrix index value)
                   {| next := next s; matrices := matrices s;
                      meshes := meshes s; effects := [] |}))
  = customMatrix.
Proof.
  intros Hnan s1 state' s2. subst s1 state' s2.
  unfold handle, exec, handleInputChange, handleCustomMatrixChange.
  rewrite Hnan. cbn. repeat split; now destruct s.
Qed.

End ParsedInput.

Lemma parseDecimal_45 : parseDecimal "45" = Some 45%R.
Proof. lazy -[IZR Rplus Rdiv Rmult Rinv pow Ropp]. f_equal. simpl. field. Qed.

Lemma parseDecimal_quarter : parseDecimal "0.25" = Some (/ 4)%R.
Proof. lazy -[IZR Rplus Rdiv Rmult Rinv pow Ropp]. f_equal. simpl. field. Qed.

Lemma parseDecimal_letters : parseDecimal "abc" = None.
Proof. reflexivity. Qed.

Lemma toFixed_quarter : toFixed (/ 4)%R 1 = (3 / 10)%R.
Proof.
  unfold toFixed.
  destruct (Rlt_dec (/ 4) 0) as [Hneg | _]; [lra |].
  destruct (Rle_dec (10 ^ 21) (/ 4)) as [Hbig | _].
  - pose proof (pow_R1_Rle 10 21 ltac:(lra)). lra.
  - replace (Zfloor (/ 4 * 10 ^ 1 + / 2)) with 3%Z; [simpl; field |].
    symmetry. apply Zfloor_eq. simpl. lra.
Qed.

Lemma rotation_degrees_radians_witness :
  (value0 {| value0 := 45%R; otherThumbs := [] |} = 45%R /\
   parseDecimal "45" = Some 45%R) /\
  let viaSlider :=
    fst (handle (handleRotationChange sampleState Axis.y
                   {| value0 := 45%R; otherThumbs := [] |})
                sampleState (sampleSys Matrix4.identity)) in
  let viaInput :=
    fst (handle (handleInputChange parseDecimal sampleState Key.rotation Axis.y "45")
                sampleState (sampleSys Matrix4.identity)) in
  getAxis (rotation (transform viaSlider)) Axis.y = (45 * PI / 180)%R /\
  getAxis (rotation (transform viaInput)) Axis.y = (45 * PI / 180)%R /\
  rotationSliderValue viaSlider Axis.y = 45%R /\
  rotationSliderValue viaInput Axis.y = 45%R /\
  rotationInputValue viaInput Axis.y = toFixed 45%R 1.
Proof.
  split; [split; [reflexivity | exact parseDecimal_45] |].
  destruct (@rotation_degrees_radians parseDecimal sampleState Axis.y
              {| value0 := 45%R; otherThumbs := [] |} "45" 45%R
              (sampleSys Matrix4.identity) eq_refl parseDecimal_45)
    as (H1 & H2 & H3 & H4 & _ & H6 & _).
  repeat split; assumption.
Defined.

(** C4, as stated, fails for the numeric input: 0.25 typed into the
    rotation input of the y axis is stored as 0.25 * PI / 180, and the
    input then shows 0.3. *)
Lemma rotation_input_shows_rounded_value :
  parseDecimal "0.25" = Some (/ 4)%R /\
  let state' :=
    fst (handle (handleInputChange parseDecimal sampleState Key.rotation Axis.y "0.25")
                sampleState (sampleSys Matrix4.identity)) in
  getAxis (rotation (transform state')) Axis.y = (/ 4 * PI / 180)%R /\
  rotationInputValue state' Axis.y = (3 / 10)%R /\
  rotationInputValue state' Axis.y <> (/ 4)%R.
Proof.
  split; [exact parseDecimal_quarter |].
  unfold handleInputChange. rewrite parseDecimal_quarter, handle_dispatch.
  unfold rotationInputValue. cbn [appReducer transform rotation spreadTransform
    spread onlyKey p_rotation getKey getAxis setAxis Vec.y].
  rewrite degrees_roundtrip, toFixed_quarter.
  repeat split. lra.
Qed.

Lemma nan_input_ignored_witness :
  parseDecimal "abc" = None /\
  exec (handleInputChange parseDecimal sampleState Key.position Axis.x "abc")
       (sampleSys Matrix4.identity) = sampleSys Matrix4.identity /\
  fst (handle (handleInputChange parseDecimal sampleState Key.position Axis.x "abc")
              sampleState (sampleSys Matrix4.identity)) = sampleState /\
  nextCustomMatrix initialCustomMatrix
    (effects (exec (handleCustomMatrixChange parseDecimal initialCustomMatrix
                      5 "abc")
                   (sampleSys Matrix4.identity)))
  = initialCustomMatrix.
Proof.
  split; [exact parseDecimal_letters |].
  destruct (@nan_input_ignored parseDecimal sampleState Key.position Axis.x
              initialCustomMatrix 5 "abc" (sampleSys Matrix4.identity)
              parseDecimal_letters)
    as (H1 & _ & H3 & _ & _ & H6).
  repeat split; assumption.
Defined.


(** The panel's own [isOrthogonal] is the same check on the cached
    matrix of the selected object. *)
Lemma isOrthogonal_selected (state : AppState) (o : SceneObject) (s : Sys) :
  selectedObject state = Some o ->
  isOrthogonal state s = checkIfOrthogonal (so_matrix o) s.
Proof.
  intros Hsel. unfold isOrthogonal, getCurrentMatrix. rewrite Hsel.
  reflexivity.
Qed.

(* ================================================================== *)
(** * Further properties of the code *)

(** ** Invariants of the reducer *)

Lemma map_id_filter_NoDup (f : SceneObject -> bool) (l : list SceneObject) :
  NoDup (map so_id l) -> NoDup (map so_id (filter f l)).
Proof.
  induction l as [| a l IH]; simpl; [trivial |].
  intros H. apply NoDup_cons_iff in H as [Hnotin Hnodup].
  destruct (f a); simpl; [| now apply IH].
  constructor; [| now apply IH].
  intros Hin. apply Hnotin. apply in_map_iff in Hin as (o & Hid & Ho).
  apply in_map_iff. exists o. split; [assumption |].
  now apply filter_In in Ho.
Qed.

Lemma map_id_setMatrix (id : string) (m : loc) (l : list SceneObject) :
  map so_id
    (map (fun obj =>
            if String.eqb (so_id obj) id
            then {| so_id := so_id obj; so_name := so_name obj;
                    so_type := so_type obj; so_mesh := so_mesh obj;
                    so_position := so_position obj;
                    so_rotation := so_rotation obj;
                    so_scale := so_scale obj;
                    so_matrix := m;
                    so_color := so_color obj |}
            else obj) l)
  = map so_id l.
Proof.
  rewrite map_map. apply map_ext. intros o.
  now destruct (String.eqb (so_id o) id).
Qed.

Lemma NoDup_snoc {A : Type} (l : list A) (x : A) :
  NoDup (l ++ [x]) <-> NoDup l /\ ~ In x l.
Proof.
  induction l as [| a l IH]; simpl.
  - split; [intros _; split; [constructor | tauto] |].
    intros _. constructor; [intros [] | constructor].
  - rewrite !NoDup_cons_iff, IH, in_app_iff. simpl. intuition congruence.
Qed.

(** X1. Ids stay unique under every action, provided an [ADD_OBJECT]
    brings an id that no object carries yet; the reducer does not check
    this itself: adding an object under a present id yields a list with a
    repeated id. *)
Theorem uniqueIds_preserved (state : AppState) (action : AppAction) :
  uniqueIds state ->
  (forall o, action = ADD_OBJECT o ->
             forall o', In o' (objects state) -> so_id o' <> so_id o) ->
  uniqueIds (appReducer state action) /\
  (forall o o', In o' (objects state) -> so_id o' = so_id o ->
                ~ uniqueIds (appReducer state (ADD_OBJECT o))).
Proof.
  unfold uniqueIds. intros Hunique Hfresh. split.
  - destruct action; simpl; trivial.
    + rewrite map_app. simpl. apply NoDup_snoc. split; [assumption |].
      intros Hin. apply in_map_iff in Hin as (o' & Hid & Ho').
      exact (Hfresh payload eq_refl o' Ho' Hid).
    + now apply map_id_filter_NoDup.
    + now rewrite map_id_setMatrix.
  - intros o o' Hin Hid Hnodup. simpl in Hnodup. rewrite map_app in Hnodup.
    simpl in Hnodup. apply NoDup_snoc in Hnodup as [_ Hnotin].
    apply Hnotin. rewrite <- Hid. now apply in_map.
Qed.

Lemma sampleState_uniqueIds : uniqueIds sampleState.
Proof.
  unfold uniqueIds. simpl. constructor.
  - intros [H | []]. discriminate.
  - constructor; [intros [] | constructor].
Qed.

Lemma uniqueIds_preserved_witness :
  uniqueIds sampleState /\
  uniqueIds (appReducer sampleState (ADD_OBJECT samplePlane)) /\
  ~ uniqueIds (appReducer sampleState (ADD_OBJECT sampleCube)).
Proof.
  assert (Hfresh : forall o, ADD_OBJECT samplePlane = ADD_OBJECT o ->
            forall o', In o' (objects sampleState) -> so_id o' <> so_id o).
  { intros o [= <-] o' [<- | [<- | []]]; discriminate. }
  destruct (@uniqueIds_preserved sampleState (ADD_OBJECT samplePlane)
              sampleState_uniqueIds Hfresh) as [Hkeep Hbreak].
  repeat split; try assumption.
  - exact sampleState_uniqueIds.
  - apply (Hbreak sampleCube sampleCube); [left; reflexivity | reflexivity].
Defined.

(** ** Lookup after adding and removing *)

Lemma findObject_app (id : string) (l1 l2 : list SceneObject) :
  findObject id (l1 ++ l2) =
  match findObject id l1 with
  | Some o => Some o
  | None => findObject id l2
  end.
Proof.
  unfold findObject. induction l1 as [| a l1 IH]; simpl; [reflexivity |].
  now destruct (String.eqb (so_id a) id).
Qed.

Lemma findObject_filter_other (id id' : string) (l : list SceneObject) :
  id' <> id ->
  findObject id' (filter (fun obj => negb (String.eqb (so_id obj) id)) l)
  = findObject id' l.
Proof.
  intros Hne. unfold findObject. induction l as [| a l IH]; simpl; [reflexivity |].
  destruct (String.eqb (so_id a) id) eqn:Ea; simpl.
  - apply String.eqb_eq in Ea.
    assert (E : String.eqb (so_id a) id' = false).
    { apply String.eqb_neq. congruence. }
    now rewrite E.
  - destruct (String.eqb (so_id a) id'); [reflexivity | exact IH].
Qed.

Lemma findObject_filter_same (id : string) (l : list SceneObject) :
  findObject id (filter (fun obj => negb (String.eqb (so_id obj) id)) l) = None.
Proof.
  apply findObject_absent. intros o Hin.
  apply filter_In in Hin as [_ Hne].
  now apply negb_true_iff, String.eqb_neq in Hne.
Qed.

(** X2. Lookup by id after the two list actions.  After [REMOVE_OBJECT]
    the removed id is found no more and every other id finds what it
    found before.  After [ADD_OBJECT] every id that was found is still
    found, the same object, also the id of the new object when it was
    taken already; the new object is found under its id only when that
    id was free. *)
Theorem findObject_after_list_actions (state : AppState) (id : string)
    (o : SceneObject) :
  let removed := objects (appReducer state (REMOVE_OBJECT id)) in
  let added := objects (appReducer state (ADD_OBJECT o)) in
  findObject id removed = None /\
  (forall id', id' <> id -> findObject id' removed = findObject id' (objects state)) /\
  (forall id' o', findObject id' (objects state) = Some o' ->
                  findObject id' added = Some o') /\
  (findObject (so_id o) (objects state) = None ->
   findObject (so_id o) added = Some o) /\
  (forall id', id' <> so_id o ->
               findObject id' added = findObject id' (objects state)).
Proof.
  intros removed added. subst removed added. simpl.
  split; [apply findObject_filter_same |].
  split; [intros id' Hne; now apply findObject_filter_other |].
  split; [| split].
  - intros id' o' Hfound. now rewrite findObject_app, Hfound.
  - intros Hfree. rewrite findObject_app, Hfree. unfold findObject. simpl.
    now rewrite String.eqb_refl.
  - intros id' Hne. rewrite findObject_app.
    destruct (findObject id' (objects state)); [reflexivity |].
    unfold findObject. simpl.
    assert (E : String.eqb (so_id o) id' = false).
    { apply String.eqb_neq. congruence. }
    now rewrite E.
Qed.

(** ** The selection *)

Lemma selectedObject_Some (state : AppState) (id : string) :
  selectedObjectId state = Some id ->
  (exists o, In o (objects state) /\ so_id o = id) ->
  exists o, selectedObject state = Some o /\ so_id o = id.
Proof.
  intros Hsel Hex. unfold selectedObject. rewrite Hsel.
  destruct (@findObject_present id (objects state) Hex) as [o Hfind].
  exists o. split; [assumption |].
  now destruct (findObject_first _ _ Hfind) as (_ & _ & _ & Hid & _).
Qed.

(** X3. A selection that names an object still names one after any
    action other than a [SELECT_OBJECT] of an id that no object carries;
    in particular [REMOVE_OBJECT] of the selected object clears the
    selection, and [REMOVE_OBJECT] of another id leaves the selection on
    the very same object. *)
Theorem selectionValid_preserved (state : AppState) (action : AppAction) :
  selectionValid state ->
  (forall id, action = SELECT_OBJECT id ->
              exists o, In o (objects state) /\ so_id o = id) ->
  selectionValid (appReducer state action) /\
  (forall id o, selectedObject state = Some o -> so_id o <> id ->
     selectedObject (appReducer state (REMOVE_OBJECT id)) = Some o) /\
  (forall o, selectedObject state = Some o ->
     selectedObject (appReducer state (REMOVE_OBJECT (so_id o))) = None).
Proof.
  unfold selectionValid. intros Hvalid Hknown. split; [| split].
  - destruct action; simpl; trivial.
    + destruct (selectedObjectId state) as [sel |]; [| trivial].
      destruct Hvalid as (o & Hin & Hid). exists o.
      split; [apply in_or_app; now left | assumption].
    + destruct (selectedObjectId state) as [sel |]; simpl; [| trivial].
      destruct (String.eqb sel payload) eqn:E; [trivial |].
      destruct Hvalid as (o & Hin & Hid). exists o. split; [| assumption].
      apply filter_In. split; [assumption |].
      apply negb_true_iff. now rewrite Hid.
    + now apply Hknown.
    + destruct (selectedObjectId state) as [sel |]; [| trivial].
      destruct Hvalid as (o & Hin & Hid).
      assert (Hids : In sel (map so_id (objects state))).
      { rewrite <- Hid. now apply in_map. }
      rewrite <- (map_id_setMatrix id matrix0) in Hids.
      apply in_map_iff in Hids as (o' & Hid' & Hin'). now exists o'.
  - intros id o Hsel Hne. unfold selectedObject in *. simpl.
    destruct (selectedObjectId state) as [sel |]; [| discriminate].
    assert (Hid : so_id o = sel).
    { now destruct (findObject_first _ _ Hsel) as (_ & _ & _ & Hid & _). }
    simpl. assert (E : String.eqb sel id = false).
    { apply String.eqb_neq. congruence. }
    rewrite E, findObject_filter_other by congruence. exact Hsel.
  - intros o Hsel. unfold selectedObject in *. simpl.
    destruct (selectedObjectId state) as [sel |]; [| discriminate].
    assert (Hid : so_id o = sel).
    { now destruct (findObject_first _ _ Hsel) as (_ & _ & _ & Hid & _). }
    simpl. rewrite Hid, String.eqb_refl. reflexivity.
Qed.

Lemma sampleState_selectionValid : selectionValid sampleState.
Proof. exists sampleCube. split; [left; reflexivity | reflexivity]. Qed.

Lemma selectionValid_preserved_witness :
  selectionValid sampleState /\
  selectionValid (appReducer sampleState (SELECT_OBJECT "sphere_2")) /\
  selectedObject (appReducer sampleState (REMOVE_OBJECT "sphere_2")) = Some sampleCube /\
  selectedObject (appReducer sampleState (REMOVE_OBJECT "cube_1")) = None.
Proof.
  assert (Hknown : forall id, SELECT_OBJECT "sphere_2" = SELECT_OBJECT id ->
            exists o, In o (objects sampleState) /\ so_id o = id).
  { intros id [= <-]. exists sampleSphere.
    split; [right; left; reflexivity | reflexivity]. }
  destruct (@selectionValid_preserved sampleState (SELECT_OBJECT "sphere_2")
              sampleState_selectionValid Hknown) as (Hvalid & Hother & Hself).
  split; [exact sampleState_selectionValid |].
  split; [exact Hvalid |]. split.
  - apply Hother; [reflexivity | discriminate].
  - exact (Hself sampleCube eq_refl).
Defined.

(** ** [UPDATE_OBJECT_MATRIX] *)

(** X4. [UPDATE_OBJECT_MATRIX] keeps the length of the list and the id
    at every place, gives the new matrix to every object that carries
    the id (not only the first), keeps every other object, is the
    identity on the list when no object carries the id, and changes no
    other field of the state; doing it twice is doing it once. *)
Theorem update_object_matrix_spec (state : AppState) (id : string) (m : loc) :
  let state' := appReducer state (UPDATE_OBJECT_MATRIX id m) in
  List.length (objects state') = List.length (objects state) /\
  map so_id (objects state') = map so_id (objects state) /\
  (forall o, In o (objects state') -> so_id o = id -> so_matrix o = m) /\
  (forall o, In o (objects state) -> so_id o <> id -> In o (objects state')) /\
  ((forall o, In o (objects state) -> so_id o <> id) ->
   objects state' = objects state) /\
  selectedObjectId state' = selectedObjectId state /\
  transform state' = transform state /\
  viewportSettings state' = viewportSettings state /\
  theme state' = theme state /\
  appReducer state' (UPDATE_OBJECT_MATRIX id m) = state'.
Proof.
  intros state'. subst state'. simpl.
  split; [apply length_map |]. split; [apply map_id_setMatrix |].
  split; [| split; [| split]].
  - intros o Hin Hid. apply in_map_iff in Hin as (o0 & <- & _).
    destruct (String.eqb (so_id o0) id) eqn:E; [reflexivity |].
    apply String.eqb_neq in E. now destruct E.
  - intros o Hin Hne. apply in_map_iff. exists o. split; [| assumption].
    now apply String.eqb_neq in Hne as ->.
  - intros Habsent. rewrite <- (map_id (objects state)) at 2.
    apply map_ext_in. intros o Hin.
    now apply Habsent, String.eqb_neq in Hin as ->.
  - repeat split. f_equal. rewrite map_map. apply map_ext. intros o.
    destruct (String.eqb (so_id o) id) eqn:E; simpl; now rewrite E.
Qed.

(** ** The theme *)

Lemma classListAdd_In (token t : string) (classList : list string) :
  In t (classListAdd token classList) <-> In t classList \/ t = token.
Proof.
  unfold classListAdd. destruct (existsb _ classList) eqn:E.
  - split; [tauto |]. intros [H | ->]; [assumption |].
    apply existsb_exists in E as (x & Hin & Heq).
    now apply String.eqb_eq in Heq as ->.
  - rewrite in_app_iff. simpl. intuition congruence.
Qed.

Lemma classListRemove_In (token t : string) (classList : list string) :
  In t (classListRemove token classList) <-> In t classList /\ t <> token.
Proof.
  unfold classListRemove. now rewrite filter_In, negb_true_iff, String.eqb_neq.
Qed.

(** X5. [toggleTheme] flips the theme and nothing else in the state;
    the class list it leaves on the document is the one the theme effect
    of the application computes for the new state: it holds ["dark"]
    exactly when the new theme is dark, and every other class is kept;
    a second toggle gives back the state one started from. *)
Theorem toggleTheme_spec (state : AppState) (classList : list string) (s s' : Sys) :
  let r := handleReturning (toggleTheme state classList) state s in
  let state' := snd r in
  let classList' := fst r in
  theme state' <> theme state /\
  objects state' = objects state /\
  selectedObjectId state' = selectedObjectId state /\
  transform state' = transform state /\
  viewportSettings state' = viewportSettings state /\
  classList' = themeEffect state' classList /\
  (In "dark" classList' <-> theme state' = dark) /\
  (forall t, t <> "dark" -> (In t classList' <-> In t classList)) /\
  snd (handleReturning (toggleTheme state' classList') state' s') = state.
Proof.
  intros r state' classList'. subst r state' classList'.
  unfold handleReturning, toggleTheme.
  destruct state as [objs sel tr vs th].
  destruct th; cbn; unfold themeEffect; cbn;
    repeat match goal with |- _ /\ _ => split end;
    try discriminate; try reflexivity.
  - split; [reflexivity |]. intros _. apply classListAdd_In. now right.
  - intros t Ht. rewrite classListAdd_In. tauto.
  - split; [| discriminate].
    intros H. apply classListRemove_In in H as [_ H]. now destruct H.
  - intros t Ht. rewrite classListRemove_In. tauto.
Qed.

(** ** The controls of the transform *)

Lemma getAxis_setAxis_other (v : Vec.t) (axis axis' : Axis.t) (n : number) :
  axis' <> axis -> getAxis (setAxis v axis n) axis' = getAxis v axis'.
Proof. destruct axis, axis'; simpl; intros H; trivial; now destruct H. Qed.

Lemma getKey_onlyKey (t : Transform) (type : Key.t) (v : Vec.t) :
  getKey (spreadTransform t (onlyKey type v)) type = v.
Proof. now destruct type. Qed.

Lemma getKey_onlyKey_other (t : Transform) (type type' : Key.t) (v : Vec.t) :
  type' <> type -> getKey (spreadTransform t (onlyKey type v)) type' = getKey t type'.
Proof. destruct type, type'; simpl; intros H; trivial; now destruct H. Qed.

Section AxisEdit.

Variable parseFloat : string -> option number.

(** X6. A number typed into the input of one axis of position, rotation
    or scale becomes that component (in radians for a rotation) and
    changes nothing else: the other two axes of that vector, the other
    two vectors and the rest of the state are as before; the slider of
    the same axis, moved to the same number, gives the same state. *)
Theorem axis_edit_frame (state : AppState) (type : Key.t) (axis : Axis.t)
    (str : string) (v : number) (value : SliderValue) (s : Sys) :
  parseFloat str = Some v ->
  value0 value = v ->
  let state' :=
    fst (handle (handleInputChange parseFloat state type axis str) state s) in
  getAxis (getKey (transform state') type) axis =
    match type with Key.rotation => (v * PI / 180)%R | _ => v end /\
  (forall axis', axis' <> axis ->
     getAxis (getKey (transform state') type) axis' =
     getAxis (getKey (transform state) type) axis') /\
  (forall type', type' <> type ->
     getKey (transform state') type' = getKey (transform state) type') /\
  objects state' = objects state /\
  selectedObjectId state' = selectedObjectId state /\
  viewportSettings state' = viewportSettings state /\
  theme state' = theme state /\
  state' =
    fst (handle (match type with
                 | Key.position => handlePositionChange state axis value
                 | Key.rotation => handleRotationChange state axis value
                 | Key.scale => handleScaleChange state axis value
                 end) state s).
Proof.
  intros Hparse Hvalue state'. subst state'.
  unfold handleInputChange. rewrite Hparse.
  assert (Hstep : forall n,
            let st := appReducer state
                        (UPDATE_TRANSFORM
                           (onlyKey type
                              (setAxis (getKey (transform state) type) axis n))) in
            getAxis (getKey (transform st) type) axis = n /\
            (forall axis', axis' <> axis ->
               getAxis (getKey (transform st) type) axis' =
               getAxis (getKey (transform state) type) axis') /\
            (forall type', type' <> type ->
               getKey (transform st) type' = getKey (transform state) type')).
  { intros n st. subst st. cbn [appReducer transform].
    rewrite getKey_onlyKey. split; [apply getAxis_setAxis |].
    split.
    - intros axis' Hne. now apply getAxis_setAxis_other.
    - intros type' Hne. now apply getKey_onlyKey_other. }
  unfold handlePositionChange, handleRotationChange, handleScaleChange.
  rewrite Hvalue.
  destruct type; rewrite !handle_dispatch;
    match goal with
    | |- context [setAxis _ axis ?n] => destruct (Hstep n) as (H1 & H2 & H3)
    end;
    repeat split; trivial.
Qed.

End AxisEdit.

Lemma axis_edit_frame_witness :
  parseDecimal "45" = Some 45%R /\
  let state' :=
    fst (handle (handleInputChange parseDecimal sampleState Key.scale Axis.z "45")
                sampleState (sampleSys Matrix4.identity)) in
  scale (transform state') = Vec.mk 2%R 2%R 45%R /\
  position (transform state') = Vec.mk 1%R 2%R 3%R.
Proof.
  split; [exact parseDecimal_45 |].
  destruct (@axis_edit_frame parseDecimal sampleState Key.scale Axis.z "45" 45%R
              {| value0 := 45%R; otherThumbs := [] |} (sampleSys Matrix4.identity)
              parseDecimal_45 eq_refl)
    as (Hz & Haxes & Hkeys & _).
  pose proof (Haxes Axis.x ltac:(discriminate)) as Hx.
  pose proof (Haxes Axis.y ltac:(discriminate)) as Hy.
  pose proof (Hkeys Key.position ltac:(discriminate)) as Hp.
  cbn [getKey getAxis] in Hz, Hx, Hy, Hp.
  split; [| exact Hp].
  destruct (scale (transform (fst (handle _ sampleState _)))) as [sx sy sz].
  cbn in Hz, Hx, Hy. now subst.
Defined.

(** X7. The uniform scale slider sets the three scale components to its
    number and leaves position and rotation; the state it gives is the
    one reached by moving the sliders of x, y and z to that number one
    after the other. *)
Theorem uniform_scale_spec (state : AppState) (value : SliderValue) (s : Sys) :
  let uniform := fst (handle (handleUniformScale value) state s) in
  let sx := fst (handle (handleScaleChange state Axis.x value) state s) in
  let sy := fst (handle (handleScaleChange sx Axis.y value) sx s) in
  let sz := fst (handle (handleScaleChange sy Axis.z value) sy s) in
  scale (transform uniform) = Vec.mk (value0 value) (value0 value) (value0 value) /\
  position (transform uniform) = position (transform state) /\
  rotation (transform uniform) = rotation (transform state) /\
  uniform = sz.
Proof.
  unfold handleUniformScale, handleScaleChange.
  rewrite !handle_dispatch. destruct state as [objs sel [p r sc] vs th].
  cbn. repeat split.
Qed.

Lemma toFixed_zero (f : nat) : toFixed 0 f = 0%R.
Proof.
  apply toFixed_exact_iff. right. exists 0%Z. unfold Rdiv. ring.
Qed.

(** X8. Reset gives the initial transform whatever the state, as Apply
    Identity does through its payload; the rotation sliders and inputs
    then show 0 degrees; nothing else in the state changes, and a second
    reset changes nothing. *)
Theorem reset_spec (state : AppState) (s : Sys) :
  let state' := fst (handle handleReset state s) in
  transform state' = initialTransform /\
  state' = appReducer state (UPDATE_TRANSFORM identityPayload) /\
  (forall axis, rotationSliderValue state' axis = 0%R /\
                rotationInputValue state' axis = 0%R) /\
  objects state' = objects state /\
  selectedObjectId state' = selectedObjectId state /\
  fst (handle handleReset state' s) = state'.
Proof.
  unfold handleReset. rewrite !handle_dispatch. cbn.
  repeat split.
  - unfold rotationSliderValue. destruct axis; cbn; unfold Rdiv; ring.
  - unfold rotationInputValue.
    replace ((getAxis (rotation (transform _)) axis * 180) / PI)%R with 0%R.
    + apply toFixed_zero.
    + destruct axis; cbn; unfold Rdiv; ring.
Qed.

(** ** The matrix properties shown by the panels *)

Ltac unfold_matrix :=
  unfold Matrix4.determinant, Matrix4.multiplyMatrices, Matrix4.transpose,
         Matrix4.identity, Matrix4.zero, Matrix4.set in *;
  cbn [Matrix4.e0 Matrix4.e1 Matrix4.e2 Matrix4.e3 Matrix4.e4 Matrix4.e5
       Matrix4.e6 Matrix4.e7 Matrix4.e8 Matrix4.e9 Matrix4.e10 Matrix4.e11
       Matrix4.e12 Matrix4.e13 Matrix4.e14 Matrix4.e15] in *.

Lemma determinant_transpose (m : Matrix4.t) :
  Matrix4.determinant (Matrix4.transpose m) = Matrix4.determinant m.
Proof. destruct m. unfold_matrix. ring. Qed.

Lemma multiplyMatrices_assoc (a b c : Matrix4.t) :
  Matrix4.multiplyMatrices (Matrix4.multiplyMatrices a b) c =
  Matrix4.multiplyMatrices a (Matrix4.multiplyMatrices b c).
Proof. destruct a, b, c. unfold_matrix. apply Matrix4_ext; ring. Qed.

Lemma multiplyMatrices_identity_l (m : Matrix4.t) :
  Matrix4.multiplyMatrices Matrix4.identity m = m.
Proof. destruct m. unfold_matrix. apply Matrix4_ext; ring. Qed.

Lemma multiplyMatrices_identity_r (m : Matrix4.t) :
  Matrix4.multiplyMatrices m Matrix4.identity = m.
Proof. destruct m. unfold_matrix. apply Matrix4_ext; ring. Qed.

(** A left inverse of a matrix is what [invert] computes. *)
Lemma left_inverse_is_invert (m n : Matrix4.t) :
  Matrix4.multiplyMatrices n m = Matrix4.identity -> Matrix4.invert m = n.
Proof.
  intros H.
  assert (Hdet : Matrix4.determinant m <> 0%R).
  { intros E. apply (f_equal Matrix4.determinant) in H.
    rewrite determinant_multiplyMatrices, determinant_identity, E in H. lra. }
  destruct (invert_regular Hdet) as [_ Hright].
  rewrite <- (multiplyMatrices_identity_l (Matrix4.invert m)), <- H.
  now rewrite multiplyMatrices_assoc, Hright, multiplyMatrices_identity_r.
Qed.

Lemma sumOfSquares (m : Matrix4.t) :
  fold_left (fun sum e => (sum + e * e)%R) (elements m) 0%R =
  (Matrix4.e0 m * Matrix4.e0 m + Matrix4.e1 m * Matrix4.e1 m
   + Matrix4.e2 m * Matrix4.e2 m + Matrix4.e3 m * Matrix4.e3 m
   + Matrix4.e4 m * Matrix4.e4 m + Matrix4.e5 m * Matrix4.e5 m
   + Matrix4.e6 m * Matrix4.e6 m + Matrix4.e7 m * Matrix4.e7 m
   + Matrix4.e8 m * Matrix4.e8 m + Matrix4.e9 m * Matrix4.e9 m
   + Matrix4.e10 m * Matrix4.e10 m + Matrix4.e11 m * Matrix4.e11 m
   + Matrix4.e12 m * Matrix4.e12 m + Matrix4.e13 m * Matrix4.e13 m
   + Matrix4.e14 m * Matrix4.e14 m + Matrix4.e15 m * Matrix4.e15 m)%R.
Proof. unfold elements. simpl. ring. Qed.

Lemma checkIfOrthogonal_eval (m : loc) (s : Sys) :
  m < next s ->
  eval (checkIfOrthogonal m) s =
  Matrix4.equals
    (Matrix4.multiplyMatrices (Matrix4.transpose (matrices s m)) (matrices s m))
    Matrix4.identity.
Proof.
  intros Hm. unfold eval, checkIfOrthogonal. cbn. now simpl_upd.
Qed.

(** X9. A matrix that [checkIfOrthogonal] accepts has determinant 1 or
    -1, Frobenius norm 2 and trace between -4 and 4, and [invert] of it
    is its transpose: Invert Matrix on such a mesh matrix never reports
    the error. *)
Theorem orthogonal_consequences (m : loc) (s : Sys) :
  m < next s ->
  eval (checkIfOrthogonal m) s = true ->
  let M := matrices s m in
  (Matrix4.determinant M = 1%R \/ Matrix4.determinant M = (-1)%R) /\
  eval (getMatrixNorm m) s = 2%R /\
  (-4 <= eval (getMatrixTrace m) s <= 4)%R /\
  Matrix4.invert M = Matrix4.transpose M.
Proof.
  intros Hm Hortho M. rewrite checkIfOrthogonal_eval in Hortho by exact Hm.
  apply equals_true_iff in Hortho. fold M in Hortho.
  split; [| split; [| split]].
  - apply (f_equal Matrix4.determinant) in Hortho.
    rewrite determinant_multiplyMatrices, determinant_transpose,
            determinant_identity in Hortho.
    assert (H : ((Matrix4.determinant M - 1) * (Matrix4.determinant M + 1) = 0)%R)
      by lra.
    apply Rmult_integral in H as [H | H]; [left | right]; lra.
  - unfold eval, getMatrixNorm, bind, readMatrix, ret. cbn [fst snd].
    fold M. rewrite sumOfSquares.
    destruct M. unfold_matrix. injection Hortho as H0 _ _ _ _ H5 _ _ _ _ H10 _ _ _ _ H15.
    match goal with
    | |- sqrt ?e = _ => replace e with (2 * 2)%R by lra
    end.
    apply sqrt_square. lra.
  - unfold eval, getMatrixTrace, bind, readMatrix, ret. cbn [fst snd]. fold M.
    destruct M. unfold_matrix. injection Hortho as H0 _ _ _ _ H5 _ _ _ _ H10 _ _ _ _ H15.
    cbn [Matrix4.e0 Matrix4.e5 Matrix4.e10 Matrix4.e15].
    assert (Hunit : forall a b c d : R,
              (a * a + b * b + c * c + d * d = 1 -> -1 <= a <= 1)%R).
    { intros a b c d H.
      pose proof (Rle_0_sqr b). pose proof (Rle_0_sqr c).
      pose proof (Rle_0_sqr d). unfold Rsqr in *. split; nra. }
    match type of H0 with (?a * _ + ?b * _ + ?c * _ + ?d * _ = _)%R =>
      pose proof (Hunit a b c d H0) end.
    match type of H5 with (?b * _ + ?a * _ + ?c * _ + ?d * _ = _)%R =>
      pose proof (Hunit a b c d ltac:(lra)) end.
    match type of H10 with (?b * _ + ?c * _ + ?a * _ + ?d * _ = _)%R =>
      pose proof (Hunit a b c d ltac:(lra)) end.
    match type of H15 with (?b * _ + ?c * _ + ?d * _ + ?a * _ = _)%R =>
      pose proof (Hunit a b c d ltac:(lra)) end.
    lra.
  - now apply left_inverse_is_invert.
Qed.

Lemma orthogonal_consequences_witness :
  1 < next (sampleSys Matrix4.identity) /\
  eval (checkIfOrthogonal 1) (sampleSys Matrix4.identity) = true /\
  eval (getMatrixNorm 1) (sampleSys Matrix4.identity) = 2%R /\
  Matrix4.invert Matrix4.identity = Matrix4.transpose Matrix4.identity.
Proof.
  assert (Hm : 1 < next (sampleSys Matrix4.identity)) by (cbn; lia).
  assert (Hortho : eval (checkIfOrthogonal 1) (sampleSys Matrix4.identity) = true).
  { rewrite checkIfOrthogonal_eval by exact Hm. apply equals_true_iff.
    cbn [sampleSys matrices]. apply multiplyMatrices_identity_r. }
  destruct (@orthogonal_consequences 1 (sampleSys Matrix4.identity) Hm Hortho)
    as (_ & Hnorm & _ & Hinv).
  repeat split; assumption.
Defined.





Lemma isIdentity_eval (m : loc) (s : Sys) :
  m < next s ->
  eval (isIdentity m) s = Matrix4.equals (matrices s m) Matrix4.identity.
Proof.
  intros Hm. unfold eval, isIdentity. cbn. now simpl_upd.
Qed.

(** X11. [isIdentity] answers [true] exactly for the identity matrix,
    writing only into the matrix it allocates; a matrix it accepts is
    also accepted by [checkIfOrthogonal], and its trace is 4. *)
Theorem isIdentity_spec (m : loc) (s : Sys) :
  m < next s ->
  let s' := exec (isIdentity m) s in
  (eval (isIdentity m) s = true <-> matrices s m = Matrix4.identity) /\
  (forall l, l < next s -> matrices s' l = matrices s l) /\
  (forall l, meshes s' l = meshes s l) /\
  effects s' = effects s /\
  (eval (isIdentity m) s = true ->
   eval (checkIfOrthogonal m) s = true /\ eval (getMatrixTrace m) s = 4%R).
Proof.
  intros Hm s'. rewrite isIdentity_eval by exact Hm.
  split; [apply equals_true_iff |]. split; [| split; [| split]].
  - intros l Hl. subst s'. unfold exec, isIdentity. cbn. now simpl_upd.
  - reflexivity.
  - reflexivity.
  - intros H. apply equals_true_iff in H.
    rewrite checkIfOrthogonal_eval by exact Hm. rewrite H. split.
    + apply equals_true_iff. apply multiplyMatrices_identity_r.
    + unfold eval, getMatrixTrace. cbn. rewrite H. cbn. ring.
Qed.

Lemma isIdentity_spec_witness :
  1 < next (sampleSys Matrix4.identity) /\
  eval (isIdentity 1) (sampleSys Matrix4.identity) = true /\
  eval (getMatrixTrace 1) (sampleSys Matrix4.identity) = 4%R.
Proof.
  assert (Hm : 1 < next (sampleSys Matrix4.identity)) by (cbn; lia).
  destruct (@isIdentity_spec 1 (sampleSys Matrix4.identity) Hm)
    as (Hiff & _ & _ & _ & Htrue).
  assert (H : eval (isIdentity 1) (sampleSys Matrix4.identity) = true)
    by (apply Hiff; reflexivity).
  repeat split; [exact Hm | exact H | exact (proj2 (Htrue H))].
Defined.

(** ** The handlers that write the mesh matrix *)

Ltac run_handler :=
  repeat first
    [ rewrite bind_run
    | progress unfold M4.new, M4.copy, M4.identity, M4.invert, M4.determinant,
        M4.multiply, M4.multiplyMatrices, M4.clone, M4.transpose, M4.equals,
        readMesh, writeMesh, readMatrix, writeMatrix, ret, emit
    | progress cbn [fst snd next matrices meshes effects] ].

(** The same for a handler made of store primitives only: the binds are
    unfolded and reduced in one go. *)
Ltac run_direct :=
  unfold M4.clone, M4.new, M4.copy, M4.identity, M4.invert, M4.determinant,
    M4.multiply, M4.multiplyMatrices, M4.transpose, M4.equals,
    bind, ret, emit, readMesh, writeMesh, readMatrix, writeMatrix;
  cbn [fst snd next matrices meshes effects].

Section Publish.

Variable decompose : Matrix4.t -> Vector3 * Quaternion.t * Vector3.
Variable setFromQuaternion : Quaternion.t -> Euler.t.

(** [publishMatrix] writes the world matrix of the mesh, switches its
    [matrixAutoUpdate] off and dispatches the decomposition of what
    [source] holds after that. *)
Lemma publishMatrix_run (o : SceneObject) (source : loc) (s : Sys) :
  let mesh := meshes s (so_mesh o) in
  exists W ms,
    publishMatrix decompose setFromQuaternion o source s =
    (tt, {| next := next s;
            matrices := upd (matrices s) (matrixWorld mesh) W;
            meshes := ms;
            effects :=
              effects s ++
              [dispatch (UPDATE_TRANSFORM
                 (decomposedPayload decompose setFromQuaternion
                    (upd (matrices s) (matrixWorld mesh) W source)))] |}) /\
    ms (so_mesh o) =
      {| mesh_position := mesh_position mesh;
         mesh_quaternion := mesh_quaternion mesh;
         mesh_scale := mesh_scale mesh;
         matrix := matrix mesh; matrixWorld := matrixWorld mesh;
         matrixAutoUpdate := false; matrixWorldNeedsUpdate := false;
         parent := parent mesh |} /\
    (forall l, l <> so_mesh o -> ms l = meshes s l).
Proof.
  intros mesh. unfold publishMatrix.
  rewrite bind_run, setMatrixAutoUpdate_run. cbn [fst snd]. rewrite bind_run.
  match goal with
  | |- context [Object3D.updateMatrixWorld ?l true ?s1] =>
      destruct (@updateMatrixWorld_manual l s1) as [W HW];
      [cbn; now rewrite upd_eq |]
  end.
  cbn [next matrices meshes effects] in HW. rewrite !upd_eq in HW.
  cbn [matrix matrixWorld mesh_position mesh_quaternion mesh_scale parent] in HW.
  rewrite HW. cbn [fst snd]. fold mesh.
  exists W. eexists. split; [| split].
  - run_handler. reflexivity.
  - cbn [meshes]. now rewrite upd_eq.
  - intros l Hl. cbn [meshes]. now rewrite !upd_neq by exact Hl.
Qed.

(** X12. [handleMatrixUpdate], for a selected object whose mesh owns two
    allocated matrices: the mesh matrix becomes a copy of the matrix
    given, which is read and not written; no other matrix changes but
    the world matrix of the mesh; the mesh stops recomposing its matrix
    ([matrixAutoUpdate] off); the one effect is the dispatch of
    [UPDATE_TRANSFORM] with the decomposition of the matrix given. *)
Theorem handleMatrixUpdate_spec (state : AppState) (s : Sys) (o : SceneObject)
    (newMatrix : loc) :
  selectedObject state = Some o ->
  meshAllocated s o ->
  newMatrix <> matrixWorld (meshes s (so_mesh o)) ->
  let mesh := meshes s (so_mesh o) in
  let V := matrices s newMatrix in
  let s' := exec (handleMatrixUpdate decompose setFromQuaternion state newMatrix) s in
  matrices s' (matrix mesh) = V /\
  matrices s' newMatrix = V /\
  (forall l, l <> matrix mesh -> l <> matrixWorld mesh ->
             matrices s' l = matrices s l) /\
  matrix (meshes s' (so_mesh o)) = matrix mesh /\
  matrixAutoUpdate (meshes s' (so_mesh o)) = false /\
  (forall l, l <> so_mesh o -> meshes s' l = meshes s l) /\
  next s' = next s /\
  effects s' =
    effects s ++
    [dispatch (UPDATE_TRANSFORM (decomposedPayload decompose setFromQuaternion V))].
Proof.
  intros Hsel (Hm & Hw & Hmw) Hnew mesh V s'. subst s'.
  unfold exec, handleMatrixUpdate. rewrite Hsel. run_handler. fold mesh V.
  match goal with
  | |- context [publishMatrix _ _ o newMatrix ?s1] =>
      pose proof (@publishMatrix_run o newMatrix s1) as Hrun; cbv zeta in Hrun;
      destruct Hrun as (W & ms & -> & Hms & Hother)
  end.
  cbn [fst snd next matrices meshes effects] in *.
  fold mesh in Hms, Hm, Hw, Hmw, Hnew |- *.
  rewrite Hms. cbn [matrix matrixAutoUpdate].
  assert (HV : upd (upd (matrices s) (matrix mesh) V) (matrixWorld mesh) W
                   newMatrix = V).
  { rewrite upd_neq by exact Hnew.
    destruct (Nat.eq_dec newMatrix (matrix mesh)) as [E | E].
    - rewrite E. apply upd_eq.
    - now rewrite upd_neq by exact E. }
  rewrite HV.
  repeat match goal with |- _ /\ _ => split end;
    try reflexivity; try assumption.
  - now simpl_upd.
  - intros l H1 H2. now simpl_upd.
Qed.

End Publish.

Section MeshMatrixHandlers.

Variable decompose : Matrix4.t -> Vector3 * Quaternion.t * Vector3.
Variable setFromQuaternion : Quaternion.t -> Euler.t.

Lemma multiplyMeshMatrix_run (factor : Matrix4.t) (message : string)
    (state : AppState) (s : Sys) (o : SceneObject) :
  selectedObject state = Some o ->
  meshAllocated s o ->
  let mesh := meshes s (so_mesh o) in
  let product := Matrix4.multiplyMatrices (matrices s (matrix mesh)) factor in
  let s' := exec (multiplyMeshMatrix decompose setFromQuaternion factor message state) s in
  matrices s' (matrix mesh) = product /\
  matrix (meshes s' (so_mesh o)) = matrix mesh /\
  matrixAutoUpdate (meshes s' (so_mesh o)) = true /\
  (forall l, l < next s -> l <> matrix mesh -> l <> matrixWorld mesh ->
             matrices s' l = matrices s l) /\
  effects s' =
    effects s ++
    [dispatch (UPDATE_TRANSFORM
                 (decomposedPayload decompose setFromQuaternion product));
     toast_success message].
Proof.
  intros Hsel (Hm & Hw & Hmw) mesh product s'. subst s'.
  fold mesh in Hm, Hw, Hmw.
  unfold exec, multiplyMeshMatrix. rewrite Hsel. run_handler. fold mesh.
  match goal with
  | |- context [publishMatrix _ _ o ?src ?s1] =>
      pose proof (@publishMatrix_run decompose setFromQuaternion o src s1) as Hrun;
      cbv zeta in Hrun; destruct Hrun as (W & ms & -> & Hms & Hother)
  end.
  cbn [fst snd next matrices meshes effects] in *. fold mesh in Hms |- *.
  rewrite setMatrixAutoUpdate_run.
  cbn [fst snd next matrices meshes effects]. rewrite !upd_eq, Hms.
  cbn [matrix matrixAutoUpdate]. simpl_upd. fold product.
  rewrite <- app_assoc.
  repeat match goal with |- _ /\ _ => split end; try reflexivity.
  intros l H1 H2 H3. now simpl_upd.
Qed.

(** X13. Scale 2x, for a selected object whose mesh owns two allocated
    matrices: the mesh matrix is multiplied on the right by the scaling
    by 2, so its determinant is multiplied by 8 (a regular matrix stays
    regular), its translation column is kept and its three diagonal
    entries are doubled; the decomposition of the result is dispatched, and
    [matrixAutoUpdate] is on again afterwards. *)
Theorem scale2x_spec (state : AppState) (s : Sys) (o : SceneObject) :
  selectedObject state = Some o ->
  meshAllocated s o ->
  let mesh := meshes s (so_mesh o) in
  let M := matrices s (matrix mesh) in
  let s' := exec (scale2x decompose setFromQuaternion state) s in
  let M' := matrices s' (matrix mesh) in
  M' = Matrix4.multiplyMatrices M (makeScale 2 2 2) /\
  Matrix4.determinant M' = (8 * Matrix4.determinant M)%R /\
  (Matrix4.determinant M <> 0%R -> Matrix4.determinant M' <> 0%R) /\
  (Matrix4.e12 M' = Matrix4.e12 M /\ Matrix4.e13 M' = Matrix4.e13 M /\
   Matrix4.e14 M' = Matrix4.e14 M /\ Matrix4.e15 M' = Matrix4.e15 M) /\
  (Matrix4.e0 M' = 2 * Matrix4.e0 M /\ Matrix4.e5 M' = 2 * Matrix4.e5 M /\
   Matrix4.e10 M' = 2 * Matrix4.e10 M)%R /\
  matrixAutoUpdate (meshes s' (so_mesh o)) = true /\
  effects s' =
    effects s ++
    [dispatch (UPDATE_TRANSFORM (decomposedPayload decompose setFromQuaternion M'));
     toast_success "2x scale applied"].
Proof.
  intros Hsel Halloc mesh M s' M'. unfold scale2x in s'.
  destruct (@multiplyMeshMatrix_run (makeScale 2 2 2) "2x scale applied"
              state s o Hsel Halloc) as (HM' & _ & Hauto & _ & Heff).
  fold mesh M in HM', Heff. fold s' in HM', Hauto, Heff. fold M' in HM'.
  clearbody M' s'.
  assert (Hdet : Matrix4.determinant M' = (8 * Matrix4.determinant M)%R).
  { rewrite HM', determinant_multiplyMatrices.
    unfold makeScale. unfold_matrix. ring. }
  split; [exact HM' |]. split; [exact Hdet |].
  split; [intros H; rewrite Hdet; lra |].
  split; [| split; [| split; [exact Hauto |]]].
  - rewrite HM'. clear. destruct M. unfold makeScale. unfold_matrix.
    repeat split; ring.
  - rewrite HM'. clear. destruct M. unfold makeScale. unfold_matrix.
    repeat split; ring.
  - rewrite Heff. congruence.
Qed.


End MeshMatrixHandlers.

Lemma sample_selected : selectedObject sampleState = Some sampleCube.
Proof. reflexivity. Qed.

Lemma sample_allocated (m : Matrix4.t) : meshAllocated (sampleSys m) sampleCube.
Proof. unfold meshAllocated. cbn. lia. Qed.

Lemma handleMatrixUpdate_spec_witness :
  selectedObject sampleState = Some sampleCube /\
  meshAllocated (sampleSys Matrix4.identity) sampleCube /\
  let s' := exec (handleMatrixUpdate decomposeUnrotated eulerUnrotated sampleState 0)
                 (sampleSys Matrix4.identity) in
  matrices s' 1 = sampleMatrix 2 2 2 /\
  matrices s' 0 = sampleMatrix 2 2 2 /\
  effects s' =
    [dispatch (UPDATE_TRANSFORM
       (decomposedPayload decomposeUnrotated eulerUnrotated (sampleMatrix 2 2 2)))].
Proof.
  split; [exact sample_selected |]. split; [apply sample_allocated |].
  assert (Hnew : 0 <> matrixWorld (meshes (sampleSys Matrix4.identity)
                                          (so_mesh sampleCube)))
    by (cbn; lia).
  destruct (@handleMatrixUpdate_spec decomposeUnrotated eulerUnrotated sampleState
              (sampleSys Matrix4.identity) sampleCube 0
              sample_selected (sample_allocated _) Hnew)
    as (H1 & H2 & _ & _ & _ & _ & _ & H8).
  repeat split; assumption.
Defined.

Lemma scale2x_spec_witness :
  selectedObject sampleState = Some sampleCube /\
  meshAllocated (sampleSys (sampleMatrix 2 2 2)) sampleCube /\
  let s' := exec (scale2x decomposeUnrotated eulerUnrotated sampleState)
                 (sampleSys (sampleMatrix 2 2 2)) in
  Matrix4.determinant (matrices s' 1) = 64%R /\
  Matrix4.e12 (matrices s' 1) = 1%R.
Proof.
  split; [exact sample_selected |]. split; [apply sample_allocated |].
  destruct (@scale2x_spec decomposeUnrotated eulerUnrotated sampleState
              (sampleSys (sampleMatrix 2 2 2)) sampleCube
              sample_selected (sample_allocated _))
    as (_ & Hdet & _ & (H12 & _) & _).
  cbn [sampleSys meshes matrices sampleMesh matrix so_mesh sampleCube] in Hdet, H12.
  split.
  - rewrite Hdet, sampleMatrix_determinant. ring.
  - rewrite H12. reflexivity.
Defined.


Section LookAtAndCustom.

Variable decompose : Matrix4.t -> Vector3 * Quaternion.t * Vector3.
Variable setFromQuaternion : Quaternion.t -> Euler.t.

Lemma lookAt_untouched (this : Matrix4.t) (eye target up : Vector3) :
  let M := lookAt this eye target up in
  Matrix4.e3 M = Matrix4.e3 this /\ Matrix4.e7 M = Matrix4.e7 this /\
  Matrix4.e11 M = Matrix4.e11 this /\ Matrix4.e12 M = Matrix4.e12 this /\
  Matrix4.e13 M = Matrix4.e13 this /\ Matrix4.e14 M = Matrix4.e14 this /\
  Matrix4.e15 M = Matrix4.e15 this.
Proof.
  unfold lookAt.
  destruct (Matrix4.strictEq (lengthSq (subVectors eye target)) 0);
    match goal with
    | |- context [Matrix4.strictEq (lengthSq (crossVectors up ?z)) 0] =>
        destruct (Matrix4.strictEq (lengthSq (crossVectors up z)) 0)
    end;
    cbn; repeat split.
Qed.

(** X15. Look At Origin, for a selected object whose mesh owns two
    allocated matrices: the matrix written into the mesh is the look-at
    rotation from the position of the mesh towards the origin, with no
    translation: its translation column is (0,0,0) and its last row
    (0,0,0,1), wherever the mesh was; the decomposition of that matrix is
    what is dispatched. *)
Theorem applyLookAtMatrix_spec (state : AppState) (s : Sys) (o : SceneObject) :
  selectedObject state = Some o ->
  meshAllocated s o ->
  let mesh := meshes s (so_mesh o) in
  let s' := exec (applyLookAtMatrix decompose setFromQuaternion state) s in
  let M' := matrices s' (matrix mesh) in
  M' = lookAt Matrix4.identity (mesh_position mesh)
              (Vec.mk 0%R 0%R 0%R) (Vec.mk 0%R 1%R 0%R) /\
  (Matrix4.e12 M' = 0%R /\ Matrix4.e13 M' = 0%R /\ Matrix4.e14 M' = 0%R) /\
  (Matrix4.e3 M' = 0%R /\ Matrix4.e7 M' = 0%R /\ Matrix4.e11 M' = 0%R /\
   Matrix4.e15 M' = 1%R) /\
  mesh_position (meshes s' (so_mesh o)) = mesh_position mesh /\
  effects s' =
    effects s ++
    [dispatch (UPDATE_TRANSFORM (decomposedPayload decompose setFromQuaternion M'));
     toast_success "Look-at matrix applied"].
Proof.
  intros Hsel (Hm & Hw & Hmw) mesh s' M'. subst M' s'.
  fold mesh in Hm, Hw, Hmw.
  unfold exec, applyLookAtMatrix. rewrite Hsel. run_handler. fold mesh.
  match goal with
  | |- context [publishMatrix _ _ o ?src ?s1] =>
      pose proof (@publishMatrix_run decompose setFromQuaternion o src s1) as Hrun;
      cbv zeta in Hrun; destruct Hrun as (W & ms & -> & Hms & Hother)
  end.
  cbn [fst snd next matrices meshes effects] in *. fold mesh in Hms |- *.
  rewrite Hms. cbn [mesh_position]. simpl_upd.
  replace (Vec.mk (Vec.x (mesh_position mesh)) (Vec.y (mesh_position mesh))
                  (Vec.z (mesh_position mesh)))
    with (mesh_position mesh) by now destruct (mesh_position mesh).
  rewrite <- app_assoc.
  pose proof (lookAt_untouched Matrix4.identity (mesh_position mesh)
                (Vec.mk 0%R 0%R 0%R) (Vec.mk 0%R 1%R 0%R))
    as (H3 & H7 & H11 & H12 & H13 & H14 & H15).
  repeat match goal with |- _ /\ _ => split end;
    try reflexivity; assumption.
Qed.

Lemma customEntry_elements (m : Matrix4.t) (k : nat) :
  k < 16 -> customEntry (map Some (elements m)) k = Some (nth k (elements m) 0%R).
Proof.
  intros Hk. unfold customEntry, elements.
  do 16 (destruct k as [| k]; [reflexivity |]). lia.
Qed.

Lemma matrixOfCustom_elements (m : Matrix4.t) :
  matrixOfCustom (map Some (elements m)) = Some m.
Proof. now destruct m. Qed.

Lemma matrixOfCustom_Some (c : list (option number)) (m : Matrix4.t) :
  matrixOfCustom c = Some m -> firstn 16 c = map Some (elements m).
Proof.
  unfold matrixOfCustom. intros H.
  repeat match type of H with
         | match customEntry c ?k with _ => _ end = _ =>
             destruct (customEntry c k) eqn:?; [| discriminate]
         end.
  injection H as <-. unfold customEntry in *.
  do 16 (destruct c as [| ? c]; [cbn in *; congruence |]).
  cbn in *.
  repeat match goal with
         | H : match ?e with Some _ => _ | None => _ end = Some _ |- _ =>
             destruct e; [injection H as -> | discriminate]
         end.
  reflexivity.
Qed.

(** X16. Apply on the Custom tab, for a selected object whose mesh owns
    two allocated matrices.  The handler can build its matrix exactly
    when the first sixteen entries of [customMatrix] are numbers, and
    then the elements of the mesh matrix are those entries in the order
    of the array (column-major).  After Load Current the array is the
    elements of the cached matrix of the object, so that Apply writes a
    copy of the cached matrix into the mesh. *)
Theorem applyCustomMatrix_spec (state : AppState) (s : Sys) (o : SceneObject)
    (customMatrix : list (option number)) :
  selectedObject state = Some o ->
  meshAllocated s o ->
  let mesh := meshes s (so_mesh o) in
  (forall h, applyCustomMatrix decompose setFromQuaternion customMatrix state = Some h ->
     let s' := exec h s in
     map Some (elements (matrices s' (matrix mesh))) = firstn 16 customMatrix /\
     effects s' =
       effects s ++
       [dispatch (UPDATE_TRANSFORM
          (decomposedPayload decompose setFromQuaternion (matrices s' (matrix mesh))));
        toast_success "Custom matrix applied"]) /\
  (applyCustomMatrix decompose setFromQuaternion customMatrix state = None <->
   exists k, k < 16 /\ customEntry customMatrix k = None) /\
  (let loaded :=
     nextCustomMatrix customMatrix
       (effects (exec (loadCurrentMatrix state)
                      {| next := next s; matrices := matrices s;
                         meshes := meshes s; effects := [] |})) in
   loaded = map Some (elements (matrices s (so_matrix o))) /\
   exists h, applyCustomMatrix decompose setFromQuaternion loaded state = Some h /\
             matrices (exec h s) (matrix mesh) = matrices s (so_matrix o)).
Proof.
  intros Hsel (Hm & Hw & Hmw) mesh. fold mesh in Hm, Hw, Hmw.
  assert (Hrun : forall c V, matrixOfCustom c = Some V ->
            exists h, applyCustomMatrix decompose setFromQuaternion c state = Some h /\
              matrices (exec h s) (matrix mesh) = V /\
              effects (exec h s) =
                effects s ++
                [dispatch (UPDATE_TRANSFORM
                   (decomposedPayload decompose setFromQuaternion V));
                 toast_success "Custom matrix applied"]).
  { intros c V HV. unfold applyCustomMatrix. rewrite Hsel, HV.
    eexists. split; [reflexivity |].
    unfold exec. run_handler. fold mesh.
    match goal with
    | |- context [publishMatrix _ _ o ?src ?s1] =>
        pose proof (@publishMatrix_run decompose setFromQuaternion o src s1) as Hp;
        cbv zeta in Hp; destruct Hp as (W & ms & -> & Hms & Hother)
    end.
    cbn [fst snd next matrices meshes effects] in *. fold mesh.
    simpl_upd. rewrite <- app_assoc. split; reflexivity. }
  split; [| split].
  - intros h Hh s'.
    destruct (matrixOfCustom customMatrix) as [V |] eqn:HV.
    + destruct (Hrun customMatrix V HV) as (h' & Hh' & Hmat & Heff).
      rewrite Hh in Hh'. injection Hh' as <-. subst s'.
      rewrite Hmat. split; [symmetry; now apply matrixOfCustom_Some | exact Heff].
    + unfold applyCustomMatrix in Hh. rewrite Hsel, HV in Hh. discriminate.
  - unfold applyCustomMatrix. rewrite Hsel.
    destruct (matrixOfCustom customMatrix) as [V |] eqn:HV.
    + split; [discriminate |]. intros (k & Hk & Hnone). exfalso.
      apply matrixOfCustom_Some in HV.
      assert (E : customEntry customMatrix k = customEntry (firstn 16 customMatrix) k).
      { unfold customEntry. now rewrite nth_error_firstn, (proj2 (Nat.ltb_lt k 16) Hk). }
      rewrite E, HV, customEntry_elements in Hnone by exact Hk. discriminate.
    + split; [intros _ | reflexivity].
      unfold matrixOfCustom in HV.
      repeat match type of HV with
             | match customEntry customMatrix ?k with _ => _ end = None =>
                 destruct (customEntry customMatrix k) eqn:?;
                 [| exists k; split; [lia | assumption]]
             end.
      discriminate.
  - intros loaded. subst loaded.
    unfold exec, loadCurrentMatrix. rewrite Hsel. run_handler.
    cbn [nextCustomMatrix fold_left app]. split; [reflexivity |].
    destruct (Hrun _ _ (matrixOfCustom_elements (matrices s (so_matrix o))))
      as (h & Hh & Hmat & _).
    now exists h.
Qed.

End LookAtAndCustom.

Lemma applyLookAtMatrix_spec_witness :
  selectedObject sampleState = Some sampleCube /\
  meshAllocated (sampleSys (sampleMatrix 2 2 2)) sampleCube /\
  let s' := exec (applyLookAtMatrix decomposeUnrotated eulerUnrotated sampleState)
                 (sampleSys (sampleMatrix 2 2 2)) in
  Matrix4.e12 (matrices s' 1) = 0%R /\
  Matrix4.e13 (matrices s' 1) = 0%R /\
  Matrix4.e14 (matrices s' 1) = 0%R /\
  Matrix4.e12 (matrices (sampleSys (sampleMatrix 2 2 2)) 1) = 1%R.
Proof.
  split; [exact sample_selected |]. split; [apply sample_allocated |].
  destruct (@applyLookAtMatrix_spec decomposeUnrotated eulerUnrotated sampleState
              (sampleSys (sampleMatrix 2 2 2)) sampleCube
              sample_selected (sample_allocated _))
    as (_ & (H12 & H13 & H14) & _).
  repeat split; assumption.
Defined.

Lemma applyCustomMatrix_spec_witness :
  selectedObject sampleState = Some sampleCube /\
  meshAllocated (sampleSys Matrix4.identity) sampleCube /\
  exists h,
    applyCustomMatrix decomposeUnrotated eulerUnrotated
      (map Some (elements (sampleMatrix 2 2 2))) sampleState = Some h /\
    matrices (exec h (sampleSys Matrix4.identity)) 1 = sampleMatrix 2 2 2.
Proof.
  split; [exact sample_selected |]. split; [apply sample_allocated |].
  destruct (@applyCustomMatrix_spec decomposeUnrotated eulerUnrotated sampleState
              (sampleSys Matrix4.identity) sampleCube initialCustomMatrix
              sample_selected (sample_allocated _))
    as (_ & _ & Hload & h & Hh & Hmat).
  cbv zeta in Hload. rewrite Hload in Hh. exists h. split; assumption.
Defined.

(** ** The array of the Custom tab *)

Lemma customEntry_arraySet_same (a : list (option number)) (i : nat) (v : number) :
  customEntry (arraySet a i v) i = Some v.
Proof.
  unfold customEntry, arraySet. destruct (Nat.ltb i (List.length a)) eqn:E.
  - apply Nat.ltb_lt in E.
    rewrite nth_error_app2 by (rewrite length_firstn; lia).
    rewrite length_firstn. replace (i - Nat.min i (List.length a)) with 0 by lia.
    reflexivity.
  - apply Nat.ltb_ge in E.
    rewrite nth_error_app2 by exact E.
    rewrite nth_error_app2 by (rewrite repeat_length; lia).
    rewrite repeat_length. replace (i - List.length a - (i - List.length a)) with 0 by lia.
    reflexivity.
Qed.

Lemma customEntry_arraySet_other (a : list (option number)) (i j : nat) (v : number) :
  j <> i -> customEntry (arraySet a i v) j = customEntry a j.
Proof.
  intros Hne. unfold customEntry, arraySet.
  destruct (Nat.ltb i (List.length a)) eqn:E.
  - apply Nat.ltb_lt in E. destruct (Nat.lt_ge_cases j i) as [Hlt | Hge].
    + rewrite nth_error_app1 by (rewrite length_firstn; lia).
      rewrite nth_error_firstn. now apply Nat.ltb_lt in Hlt as ->.
    + rewrite nth_error_app2 by (rewrite length_firstn; lia).
      rewrite length_firstn. replace (Nat.min i (List.length a)) with i by lia.
      destruct (j - i) as [| k] eqn:Ek; [lia |].
      cbn [nth_error]. rewrite nth_error_skipn.
      replace (S i + k) with j by lia. reflexivity.
  - apply Nat.ltb_ge in E. destruct (Nat.lt_ge_cases j (List.length a)) as [Hlt | Hge].
    + now rewrite nth_error_app1 by exact Hlt.
    + rewrite nth_error_app2 by exact Hge.
      assert (Hnone : nth_error a j = None) by now apply nth_error_None.
      rewrite Hnone.
      destruct (Nat.lt_ge_cases j i) as [Hji | Hij].
      * rewrite nth_error_app1 by (rewrite repeat_length; lia).
        now rewrite nth_error_repeat by lia.
      * rewrite nth_error_app2 by (rewrite repeat_length; lia).
        rewrite repeat_length.
        destruct (j - List.length a - (i - List.length a)) as [| k] eqn:Ek; [lia |].
        cbn [nth_error]. now rewrite nth_error_nil.
Qed.

Lemma arraySet_length (a : list (option number)) (i : nat) (v : number) :
  List.length (arraySet a i v) = Nat.max (List.length a) (S i).
Proof.
  unfold arraySet. destruct (Nat.ltb i (List.length a)) eqn:E.
  - apply Nat.ltb_lt in E.
    rewrite length_app, length_firstn. cbn [List.length]. rewrite length_skipn. lia.
  - apply Nat.ltb_ge in E.
    rewrite !length_app, repeat_length. cbn [List.length]. lia.
Qed.

Section CustomInput.

Variable parseFloat : string -> option number.

(** X17. A number typed into entry [index] of the Custom tab is stored
    at that index and nowhere else (an index beyond the end lengthens
    the array and leaves holes in between, as a JavaScript array does);
    nothing is dispatched.  An array of sixteen numbers stays one under
    every such edit with [index] below 16, so that Apply can always
    build its matrix from it. *)
Theorem handleCustomMatrixChange_spec (customMatrix : list (option number))
    (index : nat) (value : string) (v : number) (s : Sys) :
  parseFloat value = Some v ->
  let s' := exec (handleCustomMatrixChange parseFloat customMatrix index value)
                 {| next := next s; matrices := matrices s;
                    meshes := meshes s; effects := [] |} in
  let customMatrix' := nextCustomMatrix customMatrix (effects s') in
  customEntry customMatrix' index = Some v /\
  (forall k, k <> index -> customEntry customMatrix' k = customEntry customMatrix k) /\
  List.length customMatrix' = Nat.max (List.length customMatrix) (S index) /\
  dispatched (effects s') = [] /\
  (fullMatrix customMatrix -> index < 16 ->
   fullMatrix customMatrix' /\ matrixOfCustom customMatrix' <> None).
Proof.
  intros Hparse s' customMatrix'. subst customMatrix' s'.
  unfold exec, handleCustomMatrixChange. rewrite Hparse. cbn.
  split; [apply customEntry_arraySet_same |].
  split; [intros k Hk; now apply customEntry_arraySet_other |].
  split; [apply arraySet_length |]. split; [reflexivity |].
  intros [Hlen Hfull] Hindex.
  assert (Hfull' : fullMatrix (arraySet customMatrix index v)).
  { split; [rewrite arraySet_length; lia |].
    intros k Hk. destruct (Nat.eq_dec k index) as [-> | Hne].
    - now rewrite customEntry_arraySet_same.
    - rewrite customEntry_arraySet_other by exact Hne. now apply Hfull. }
  split; [exact Hfull' |].
  destruct Hfull' as [_ Hall]. unfold matrixOfCustom.
  repeat match goal with
         | |- match customEntry ?c ?k with _ => _ end <> None =>
             let E := fresh "E" in
             destruct (customEntry c k) eqn:E;
             [| exfalso; exact (Hall k ltac:(lia) E)]
         end.
  discriminate.
Qed.

End CustomInput.

Lemma initialCustomMatrix_full : fullMatrix initialCustomMatrix.
Proof.
  split; [reflexivity |]. intros k Hk.
  unfold customEntry, initialCustomMatrix.
  rewrite nth_error_repeat by exact Hk. discriminate.
Qed.

Lemma handleCustomMatrixChange_spec_witness :
  parseDecimal "45" = Some 45%R /\
  let s' := exec (handleCustomMatrixChange parseDecimal initialCustomMatrix 12 "45")
                 (sampleSys Matrix4.identity) in
  customEntry (nextCustomMatrix initialCustomMatrix (effects s')) 12 = Some 45%R /\
  fullMatrix (nextCustomMatrix initialCustomMatrix (effects s')).
Proof.
  split; [exact parseDecimal_45 |].
  destruct (@handleCustomMatrixChange_spec parseDecimal initialCustomMatrix 12 "45"
              45%R (sampleSys Matrix4.identity) parseDecimal_45)
    as (Hset & _ & _ & _ & Hfull).
  destruct (Hfull initialCustomMatrix_full ltac:(lia)) as [Hfull' _].
  split; assumption.
Defined.

(** ** Inverting twice *)

Section InvertTwice.

Variable decompose : Matrix4.t -> Vector3 * Quaternion.t * Vector3.
Variable setFromQuaternion : Quaternion.t -> Euler.t.

(** X18. After Invert Matrix on a regular mesh matrix [M] (selected
    object, mesh owning two allocated matrices, exact arithmetic), the
    matrix in the mesh has determinant [1 / det M], so it is regular
    too, and [invert] of it is [M] again: inverting what Invert Matrix
    wrote restores the matrix one started from.  The matrix written is
    [M] itself exactly when [M] times [M] is the identity. *)
Theorem invertMatrix_involution (state : AppState) (s : Sys) (o : SceneObject) :
  selectedObject state = Some o ->
  meshAllocated s o ->
  let mesh := meshes s (so_mesh o) in
  let M := matrices s (matrix mesh) in
  Matrix4.determinant M <> 0%R ->
  let s' := exec (invertMatrix decompose setFromQuaternion state) s in
  let M' := matrices s' (matrix mesh) in
  Matrix4.determinant M' = (/ Matrix4.determinant M)%R /\
  Matrix4.determinant M' <> 0%R /\
  Matrix4.invert M' = M /\
  (M' = M <-> Matrix4.multiplyMatrices M M = Matrix4.identity).
Proof.
  intros Hsel (Hm & Hw & Hmw) mesh M Hdet s' M'.
  destruct (@invertMatrix_run decompose setFromQuaternion state s o
              Hsel Hm Hw Hmw) as [_ Hreg].
  destruct (Hreg Hdet) as (_ & _ & HM'). fold mesh s' M M' in HM'.
  clearbody M' s'. subst M'.
  destruct (invert_regular Hdet) as [Hleft Hright].
  assert (Hprod : (Matrix4.determinant (Matrix4.invert M)
                   * Matrix4.determinant M = 1)%R).
  { rewrite <- determinant_multiplyMatrices, Hleft. apply determinant_identity. }
  split; [| split; [| split]].
  - apply Rmult_eq_reg_r with (r := Matrix4.determinant M); [| exact Hdet].
    rewrite Hprod. field. exact Hdet.
  - now apply determinant_invert_regular.
  - now apply left_inverse_is_invert.
  - split.
    + intros E. now rewrite <- E at 1.
    + intros E. now apply left_inverse_is_invert.
Qed.

End InvertTwice.

Lemma invertMatrix_involution_witness :
  selectedObject sampleState = Some sampleCube /\
  meshAllocated (sampleSys (sampleMatrix 2 2 2)) sampleCube /\
  Matrix4.determinant (sampleMatrix 2 2 2) <> 0%R /\
  let s' := exec (invertMatrix decomposeUnrotated eulerUnrotated sampleState)
                 (sampleSys (sampleMatrix 2 2 2)) in
  Matrix4.determinant (matrices s' 1) = (/ 8)%R /\
  Matrix4.invert (matrices s' 1) = sampleMatrix 2 2 2.
Proof.
  assert (H8 : Matrix4.determinant (sampleMatrix 2 2 2) = 8%R)
    by (rewrite sampleMatrix_determinant; ring).
  assert (Hdet : Matrix4.determinant (sampleMatrix 2 2 2) <> 0%R)
    by (rewrite H8; lra).
  split; [exact sample_selected |]. split; [apply sample_allocated |].
  split; [exact Hdet |].
  destruct (@invertMatrix_involution decomposeUnrotated eulerUnrotated sampleState
              (sampleSys (sampleMatrix 2 2 2)) sampleCube
              sample_selected (sample_allocated _) Hdet)
    as (Hinv & _ & Hback & _).
  cbn [sampleSys meshes matrices sampleMesh matrix so_mesh sampleCube] in Hinv, Hback.
  split; [| exact Hback].
  rewrite Hinv. now rewrite H8.
Defined.

(** ** The effect that applies the transform *)


(** The matrix composed with a unit quaternion has the product of the
    scale components for determinant. *)
Lemma compose_determinant (p : Vector3) (q : Quaternion.t) (sc : Vector3) :
  (Quaternion.x q * Quaternion.x q + Quaternion.y q * Quaternion.y q
   + Quaternion.z q * Quaternion.z q + Quaternion.w q * Quaternion.w q = 1)%R ->
  Matrix4.determinant (compose p q sc) = (Vec.x sc * Vec.y sc * Vec.z sc)%R.
Proof.
  destruct p as [px py pz], q as [x y z w], sc as [sx sy sz].
  unfold compose. cbn [Quaternion.x Quaternion.y Quaternion.z Quaternion.w
                       Vec.x Vec.y Vec.z].
  intros H. unfold_matrix. nsatz.
Qed.

Lemma compose_translation (p : Vector3) (q : Quaternion.t) (sc : Vector3) :
  Matrix4.e12 (compose p q sc) = Vec.x p /\
  Matrix4.e13 (compose p q sc) = Vec.y p /\
  Matrix4.e14 (compose p q sc) = Vec.z p /\
  Matrix4.e15 (compose p q sc) = 1%R.
Proof. repeat split. Qed.





(** ** Adding an object *)

Lemma numberToString_inj (n m : N) : numberToString n = numberToString m -> n = m.
Proof.
  unfold numberToString. intros H.
  apply DecimalN.Unsigned.to_uint_inj.
  apply (f_equal NilEmpty.uint_of_string) in H.
  rewrite !NilEmpty.usu in H. now injection H.
Qed.

Lemma addObject_run (env : Environment) (state : AppState) (type : ObjectType)
    (s : Sys) :
  let id := String.append (typeName type)
              (String.append "_" (numberToString (now env))) in
  let o :=
    {| so_id := id;
       so_name := String.append (capitalize (typeName type))
                    (String.append " "
                       (numberToString (N.of_nat (List.length (objects state) + 1))));
       so_type := type;
       so_mesh := next s;
       so_position := Vec.mk (randomOffset (randomX env)) (randomOffset (randomY env))
                             (randomOffset (randomZ env));
       so_rotation := Euler.mk 0%R 0%R 0%R XYZ;
       so_scale := Vec.mk 1%R 1%R 1%R;
       so_matrix := S (S (next s));
       so_color :=
         nth (Z.to_nat (Zfloor (randomColor env * INR (List.length colors))))
             colors "undefined" |} in
  let s' := exec (addObject env state type) s in
  effects s' = effects s ++ [dispatch (ADD_OBJECT o); dispatch (SELECT_OBJECT id)] /\
  next s' = S (S (S (next s))) /\
  matrices s' (next s) = Matrix4.identity /\
  matrices s' (S (S (next s))) = Matrix4.identity /\
  (forall l, l < next s -> matrices s' l = matrices s l) /\
  meshes s' (next s) =
    {| mesh_position := so_position o;
       mesh_quaternion := Quaternion.mk 0%R 0%R 0%R 1%R;
       mesh_scale := Vec.mk 1%R 1%R 1%R;
       matrix := next s; matrixWorld := S (next s);
       matrixAutoUpdate := true; matrixWorldNeedsUpdate := false;
       parent := None |} /\
  (forall l, l <> next s -> meshes s' l = meshes s l).
Proof.
  intros id o s'. subst s' o id.
  unfold exec, addObject, newMesh, setMeshPosition. run_direct.
  rewrite !upd_eq. cbn [mesh_position mesh_scale matrix]. simpl_upd.
  rewrite <- app_assoc.
  repeat match goal with |- _ /\ _ => split end; try reflexivity.
  - intros l Hl. now simpl_upd.
  - intros l Hl. now rewrite !upd_neq by exact Hl.
Qed.

Lemma randomOffset_range (r : number) :
  (0 <= r < 1)%R -> (-2 <= randomOffset r < 2)%R.
Proof. unfold randomOffset. lra. Qed.

Lemma color_in_range (r : number) :
  (0 <= r < 1)%R ->
  In (nth (Z.to_nat (Zfloor (r * INR (List.length colors)))) colors "undefined")
     colors.
Proof.
  intros Hr. apply nth_In.
  replace (INR (List.length colors)) with 8%R by (cbn; ring).
  assert (Hlo : (0 <= Zfloor (r * 8))%Z) by (apply Zfloor_lub; simpl; lra).
  assert (Hhi : (Zfloor (r * 8) < 8)%Z).
  { apply lt_IZR. destruct (Zfloor_bound (r * 8)) as [H _]. lra. }
  change (List.length colors) with 8. lia.
Qed.

(** X20. [addObject], with the results of [Math.random()] in [0, 1):
    the two actions it dispatches append one object and select it; the
    object has the type asked for, a colour of the palette, a position
    whose three components lie in [-2, 2), rotation 0 and scale 1; its
    mesh and its cached matrix are fresh objects, the cached matrix a
    separate copy of the mesh matrix, both the identity.  When no object
    carried the new id, the transform of the next state is that of the
    new object; when one did, the transform is that of the older one. *)
Theorem addObject_spec (env : Environment) (state : AppState) (type : ObjectType)
    (s : Sys) :
  (0 <= randomColor env < 1)%R -> (0 <= randomX env < 1)%R ->
  (0 <= randomY env < 1)%R -> (0 <= randomZ env < 1)%R ->
  let s' := exec (addObject env state type) s in
  let state' := fst (handle (addObject env state type) state s) in
  exists o,
    addedObject env state type s = Some o /\
    dispatched (effects s') =
      dispatched (effects s) ++ [ADD_OBJECT o; SELECT_OBJECT (so_id o)] /\
    objects state' = objects state ++ [o] /\
    selectedObjectId state' = Some (so_id o) /\
    so_type o = type /\ In (so_color o) colors /\
    (-2 <= Vec.x (so_position o) < 2)%R /\
    (-2 <= Vec.y (so_position o) < 2)%R /\
    (-2 <= Vec.z (so_position o) < 2)%R /\
    so_rotation o = Euler.mk 0%R 0%R 0%R XYZ /\
    so_scale o = Vec.mk 1%R 1%R 1%R /\
    ((forall o', In o' (objects state) -> so_id o' <> so_id o) ->
     transform state' = transformOf o) /\
    (forall o', findObject (so_id o) (objects state) = Some o' ->
                transform state' = transformOf o') /\
    next s <= so_mesh o /\ next s <= so_matrix o /\
    so_matrix o <> matrix (meshes s' (so_mesh o)) /\
    matrices s' (so_matrix o) = Matrix4.identity /\
    matrices s' (matrix (meshes s' (so_mesh o))) = Matrix4.identity /\
    mesh_position (meshes s' (so_mesh o)) = so_position o /\
    meshAllocated s' o /\
    (forall l, l < next s -> matrices s' l = matrices s l).
Proof.
  intros Hc Hx Hy Hz s' state'.
  pose proof (addObject_run env state type s) as Hs.
  pose proof (addObject_run env state type
                {| next := next s; matrices := matrices s;
                   meshes := meshes s; effects := [] |}) as H0.
  cbv zeta in Hs, H0. cbn [next matrices meshes effects] in H0.
  destruct Hs as (Heff & Hnext & Hmesh & Hcached & Hframe & Hm & _).
  destruct H0 as (Heff0 & _).
  fold s' in Heff, Hnext, Hmesh, Hcached, Hframe, Hm.
  match type of Heff with
  | _ = _ ++ [dispatch (ADD_OBJECT ?obj); _] => set (o := obj) in *
  end.
  exists o.
  assert (Hstate : state' =
            appReducer (appReducer state (ADD_OBJECT o)) (SELECT_OBJECT (so_id o))).
  { subst state'. unfold handle. cbn [fst]. rewrite Heff0. reflexivity. }
  clearbody s' state'. subst state'.
  split; [unfold addedObject; now rewrite Heff0 |].
  split; [rewrite Heff; unfold dispatched; now rewrite flat_map_app |].
  split; [reflexivity |]. split; [reflexivity |]. split; [reflexivity |].
  split; [now apply color_in_range |].
  split; [now apply randomOffset_range |].
  split; [now apply randomOffset_range |].
  split; [now apply randomOffset_range |].
  split; [reflexivity |]. split; [reflexivity |].
  split; [| split].
  - intros Hfresh. cbn [appReducer transform objects].
    rewrite findObject_app, (findObject_absent _ Hfresh).
    unfold findObject. cbn [find]. now rewrite String.eqb_refl.
  - intros o' Hfound. cbn [appReducer transform objects].
    now rewrite findObject_app, Hfound.
  - unfold meshAllocated. unfold o in *.
    cbn [so_mesh so_matrix so_position] in *. rewrite !Hm, Hnext.
    cbn [matrix matrixWorld mesh_position].
    repeat match goal with |- _ /\ _ => split end;
      try lia; try assumption; reflexivity.
Qed.

Lemma addedObject_id (env : Environment) (state : AppState) (type : ObjectType)
    (s : Sys) (o : SceneObject) :
  addedObject env state type s = Some o ->
  so_id o = String.append (typeName type)
              (String.append "_" (numberToString (now env))).
Proof.
  unfold addedObject. intros H.
  destruct (addObject_run env state type
              {| next := next s; matrices := matrices s;
                 meshes := meshes s; effects := [] |}) as (E & _).
  cbn [effects next] in E. rewrite E in H. cbn in H. now injection H as <-.
Qed.

Lemma addObject_spec_witness :
  ((0 <= randomColor sampleEnvironment < 1)%R /\
   (0 <= randomX sampleEnvironment < 1)%R /\
   (0 <= randomY sampleEnvironment < 1)%R /\
   (0 <= randomZ sampleEnvironment < 1)%R) /\
  exists o,
    addedObject sampleEnvironment sampleState plane (sampleSys Matrix4.identity)
      = Some o /\
    so_id o = "plane_1700000000000" /\
    objects (fst (handle (addObject sampleEnvironment sampleState plane)
                         sampleState (sampleSys Matrix4.identity)))
      = [sampleCube; sampleSphere; o] /\
    In (so_color o) colors.
Proof.
  assert (H : (0 <= randomColor sampleEnvironment < 1)%R /\
              (0 <= randomX sampleEnvironment < 1)%R /\
              (0 <= randomY sampleEnvironment < 1)%R /\
              (0 <= randomZ sampleEnvironment < 1)%R) by (cbn; lra).
  split; [exact H |]. destruct H as (Hc & Hx & Hy & Hz).
  destruct (@addObject_spec sampleEnvironment sampleState plane
              (sampleSys Matrix4.identity) Hc Hx Hy Hz)
    as (o & Hadded & _ & Hobjs & _ & _ & Hcolor & _).
  exists o. repeat split; try assumption.
  rewrite (addedObject_id Hadded). reflexivity.
Defined.

Lemma typeName_id_inj (t1 t2 : ObjectType) (x y : string) :
  String.append (typeName t1) (String.append "_" x) =
  String.append (typeName t2) (String.append "_" y) ->
  t1 = t2 /\ x = y.
Proof.
  destruct t1, t2; cbn; intros H; try discriminate;
    injection H as ->; split; reflexivity.
Qed.

(** X21. The ids that [addObject] gives to two objects are equal exactly
    when the two calls had the same type and the same [Date.now()]: two
    objects of one type added within one millisecond share their id. *)
Theorem addObject_id_collision (env1 env2 : Environment) (state1 state2 : AppState)
    (type1 type2 : ObjectType) (s1 s2 : Sys) (o1 o2 : SceneObject) :
  addedObject env1 state1 type1 s1 = Some o1 ->
  addedObject env2 state2 type2 s2 = Some o2 ->
  (so_id o1 = so_id o2 <-> type1 = type2 /\ now env1 = now env2).
Proof.
  intros H1 H2.
  rewrite (addedObject_id H1), (addedObject_id H2).
  split.
  - intros H. apply typeName_id_inj in H as [-> Hn].
    split; [reflexivity | now apply numberToString_inj].
  - intros [-> ->]. reflexivity.
Qed.

Lemma addedObject_Some (env : Environment) (state : AppState) (type : ObjectType)
    (s : Sys) :
  exists o, addedObject env state type s = Some o.
Proof.
  unfold addedObject.
  destruct (addObject_run env state type
              {| next := next s; matrices := matrices s;
                 meshes := meshes s; effects := [] |}) as (E & _).
  cbn [effects next] in E. rewrite E. cbn. eexists. reflexivity.
Qed.

Lemma addObject_id_collision_witness :
  exists o1 o2,
    addedObject sampleEnvironment sampleState plane (sampleSys Matrix4.identity)
      = Some o1 /\
    addedObject sampleEnvironment initialState plane (sampleSys (sampleMatrix 2 2 2))
      = Some o2 /\
    so_id o1 = so_id o2.
Proof.
  destruct (addedObject_Some sampleEnvironment sampleState plane
              (sampleSys Matrix4.identity)) as [o1 H1].
  destruct (addedObject_Some sampleEnvironment initialState plane
              (sampleSys (sampleMatrix 2 2 2))) as [o2 H2].
  exists o1, o2. split; [exact H1 |]. split; [exact H2 |].
  apply (addObject_id_collision H1 H2). split; reflexivity.
Defined.

(** ** The display of the matrix *)

(** X22. [formatMatrix] shows the column-major array as the matrix is
    written in mathematics: row [r], column [c] of the display is element
    [c * 4 + r], so the translation is the last column, and the matrix
    made by [set] from sixteen numbers in reading order is displayed in
    that order; every entry is shown to three decimals.  The entry of
    the Custom tab labelled [m<a><b>] is the one displayed at row [b],
    column [a]. *)
Theorem formatMatrix_layout (m : Matrix4.t)
    (n11 n12 n13 n14 n21 n22 n23 n24 n31 n32 n33 n34 n41 n42 n43 n44 : number) :
  let f x := toFixed x 3 in
  formatMatrix m =
    [[f (Matrix4.e0 m); f (Matrix4.e4 m); f (Matrix4.e8 m); f (Matrix4.e12 m)];
     [f (Matrix4.e1 m); f (Matrix4.e5 m); f (Matrix4.e9 m); f (Matrix4.e13 m)];
     [f (Matrix4.e2 m); f (Matrix4.e6 m); f (Matrix4.e10 m); f (Matrix4.e14 m)];
     [f (Matrix4.e3 m); f (Matrix4.e7 m); f (Matrix4.e11 m); f (Matrix4.e15 m)]] /\
  formatMatrix (Matrix4.set n11 n12 n13 n14 n21 n22 n23 n24
                            n31 n32 n33 n34 n41 n42 n43 n44) =
    [[f n11; f n12; f n13; f n14];
     [f n21; f n22; f n23; f n24];
     [f n31; f n32; f n33; f n34];
     [f n41; f n42; f n43; f n44]] /\
  (forall index, index < 16 ->
     nth (fst (customLabel index))
         (nth (snd (customLabel index)) (formatMatrix m) []) 0%R
     = f (nth index (elements m) 0%R)) /\
  (forall row x, In row (formatMatrix m) -> In x row ->
     exists e, In e (elements m) /\ x = f e /\ (Rabs (x - e) <= / 2000)%R).
Proof.
  intros f. split; [reflexivity |]. split; [reflexivity |]. split.
  - intros index Hindex.
    do 16 (destruct index as [| index]; [reflexivity |]). lia.
  - intros row x Hrow Hx.
    assert (Hclose : forall e, (Rabs (f e - e) <= / 2000)%R).
    { intros e. subst f. pose proof (toFixed_close e 3) as H.
      replace (/ 2 / 10 ^ 3)%R with (/ 2000)%R in H by (simpl; field). exact H. }
    unfold formatMatrix in Hrow. cbn [seq map In] in Hrow.
    repeat match goal with
           | H : _ \/ _ |- _ => destruct H as [H | H]
           | H : False |- _ => destruct H
           end; subst row; cbn [In nth elements Nat.mul Nat.add] in Hx;
      repeat match goal with
             | H : _ \/ _ |- _ => destruct H as [H | H]
             | H : False |- _ => destruct H
             end; subst x;
      (eexists; split; [| split; [reflexivity | apply Hclose]]);
      unfold elements; cbn [In]; tauto.
Qed.

(** ** The rotation inputs of the advanced panel *)


Section AdvancedClaims.

Variable decompose : Matrix4.t -> Vector3 * Quaternion.t * Vector3.
Variable setFromQuaternion : Quaternion.t -> Euler.t.

Lemma recompose_run (state : AppState) (s : Sys) (o : SceneObject)
    (V : Matrix4.t) (message : string) :
  selectedObject state = Some o ->
  meshAllocated s o ->
  let mesh := meshes s (so_mesh o) in
  let s' := exec (newMatrix <- M4.new ;;
                  writeMatrix newMatrix V ;;
                  handleMatrixUpdate decompose setFromQuaternion state newMatrix ;;
                  emit (toast_success message)) s in
  matrices s' (matrix mesh) = V /\
  (forall l, l < next s -> l <> matrix mesh -> l <> matrixWorld mesh ->
             matrices s' l = matrices s l) /\
  effects s' =
    effects s ++
    [dispatch (UPDATE_TRANSFORM (decomposedPayload decompose setFromQuaternion V));
     toast_success message].
Proof.
  intros Hsel (Hm & Hw & Hmw) mesh s'. subst s'. fold mesh in Hm, Hw, Hmw.
  unfold exec, handleMatrixUpdate. rewrite Hsel. run_handler. fold mesh.
  match goal with
  | |- context [publishMatrix _ _ o ?src ?s1] =>
      pose proof (@publishMatrix_run decompose setFromQuaternion o src s1) as Hp;
      cbv zeta in Hp; destruct Hp as (W & ms & -> & Hms & Hother)
  end.
  cbn [fst snd next matrices meshes effects] in *. fold mesh.
  simpl_upd. rewrite <- app_assoc.
  repeat match goal with |- _ /\ _ => split end; try reflexivity.
  intros l H1 H2 H3. now simpl_upd.
Qed.


(** X24. Apply Quaternion, under the same condition: the mesh matrix
    becomes the matrix composed from the decomposed position and scale
    and the four numbers typed, taken as they are (they are not
    normalised); its translation column is the decomposed position; when
    the four numbers are a unit quaternion its determinant is the
    product of the decomposed scale components. *)
Theorem applyQuaternion_spec (state : AppState) (s : Sys) (o : SceneObject)
    (currentMatrix : loc) (quaternion : Quaternion.t) :
  selectedObject state = Some o ->
  meshAllocated s o ->
  let mesh := meshes s (so_mesh o) in
  let s' := exec (applyQuaternion decompose setFromQuaternion state
                    currentMatrix quaternion) s in
  let M' := matrices s' (matrix mesh) in
  let '(p, _, sc) := decompose (matrices s currentMatrix) in
  M' = compose p quaternion sc /\
  (Matrix4.e12 M' = Vec.x p /\ Matrix4.e13 M' = Vec.y p /\ Matrix4.e14 M' = Vec.z p) /\
  ((Quaternion.x quaternion * Quaternion.x quaternion
    + Quaternion.y quaternion * Quaternion.y quaternion
    + Quaternion.z quaternion * Quaternion.z quaternion
    + Quaternion.w quaternion * Quaternion.w quaternion = 1)%R ->
   Matrix4.determinant M' = (Vec.x sc * Vec.y sc * Vec.z sc)%R) /\
  effects s' =
    effects s ++
    [dispatch (UPDATE_TRANSFORM (decomposedPayload decompose setFromQuaternion M'));
     toast_success "Quaternion applied"].
Proof.
  intros Hsel Halloc mesh s' M'.
  set (V := recompose decompose (matrices s currentMatrix) quaternion).
  assert (Hs' : s' = exec
            (newMatrix <- M4.new ;;
             writeMatrix newMatrix V ;;
             handleMatrixUpdate decompose setFromQuaternion state newMatrix ;;
             emit (toast_success "Quaternion applied")) s).
  { subst s' V. unfold applyQuaternion, exec. rewrite Hsel.
    rewrite bind_run. now destruct quaternion. }
  destruct (@recompose_run state s o V "Quaternion applied" Hsel Halloc)
    as (HM & _ & Heff).
  rewrite <- Hs' in HM, Heff. fold mesh in HM. fold M' in HM.
  clearbody M' s'. subst V. unfold recompose in HM, Heff.
  destruct (decompose (matrices s currentMatrix)) as [[p q0] sc].
  subst M'.
  split; [reflexivity |]. split; [repeat split |].
  split; [intros Hunit; now apply compose_determinant | exact Heff].
Qed.

End AdvancedClaims.


Lemma applyQuaternion_spec_witness :
  selectedObject sampleState = Some sampleCube /\
  meshAllocated (sampleSys Matrix4.identity) sampleCube /\
  let s' := exec (applyQuaternion decomposeUnrotated eulerUnrotated sampleState
                    0 (Quaternion.mk 0%R 1%R 0%R 0%R))
                 (sampleSys Matrix4.identity) in
  Matrix4.determinant (matrices s' 1) = 8%R /\
  Matrix4.e12 (matrices s' 1) = 1%R.
Proof.
  split; [exact sample_selected |]. split; [apply sample_allocated |].
  pose proof (@applyQuaternion_spec decomposeUnrotated eulerUnrotated sampleState
                (sampleSys Matrix4.identity) sampleCube 0
                (Quaternion.mk 0%R 1%R 0%R 0%R)
                sample_selected (sample_allocated _)) as H.
  cbv zeta in H. unfold decomposeUnrotated at 1 in H.
  destruct H as (_ & (H12 & _) & Hdet & _).
  cbn [sampleSys meshes matrices sampleMesh matrix so_mesh sampleCube
       Vec.x Vec.y Vec.z Quaternion.x Quaternion.y Quaternion.z Quaternion.w]
    in Hdet, H12.
  split.
  - rewrite Hdet by ring. unfold sampleMatrix, compose. cbn. ring.
  - rewrite H12. unfold sampleMatrix, compose. cbn. ring.
Defined.

(** ** The angle inputs *)

Lemma setFromEuler_single_axis (axis : Axis.t) (v : number) (order : EulerOrder) :
  let angles := setAxis (Vec.mk 0%R 0%R 0%R) axis v in
  let h := (v * (PI / 180) / 2)%R in
  setFromEuler (degToRad (Vec.x angles)) (degToRad (Vec.y angles))
               (degToRad (Vec.z angles)) order
  = match axis with
    | Axis.x => Quaternion.mk (sin h) 0%R 0%R (cos h)
    | Axis.y => Quaternion.mk 0%R (sin h) 0%R (cos h)
    | Axis.z => Quaternion.mk 0%R 0%R (sin h) (cos h)
    end.
Proof.
  assert (H0 : (degToRad 0 / 2 = 0)%R) by (unfold degToRad; field).
  unfold setFromEuler.
  destruct axis; cbn [setAxis Vec.x Vec.y Vec.z]; rewrite !H0, sin_0, cos_0;
    unfold degToRad; destruct order; f_equal; ring.
Qed.

Section EulerInputClaims.

Variable decompose : Matrix4.t -> Vector3 * Quaternion.t * Vector3.
Variable setFromQuaternion : Quaternion.t -> Euler.t.
Variable parseFloat : string -> option number.

(** X25. Typing into one of the three angle inputs, for a selected
    object whose mesh owns two allocated matrices.  A value that is not
    a number changes nothing.  A number [v] is applied about the edited
    axis alone, the two other angles being taken as 0 whatever their
    inputs show: the mesh matrix becomes the matrix composed from the
    decomposed position and scale and the rotation by [v] degrees about
    that axis, and this matrix is the same for every Euler order. *)
Theorem eulerInputChange_spec (state : AppState) (s : Sys) (o : SceneObject)
    (currentMatrix : loc) (order : EulerOrder) (axis : Axis.t) (value : string) :
  selectedObject state = Some o ->
  meshAllocated s o ->
  let mesh := meshes s (so_mesh o) in
  let run order :=
    exec (eulerInputChange decompose setFromQuaternion parseFloat state
            currentMatrix order axis value) s in
  match parseFloat value with
  | None => run order = s
  | Some v =>
      let h := (v * (PI / 180) / 2)%R in
      let '(p, _, sc) := decompose (matrices s currentMatrix) in
      matrices (run order) (matrix mesh)
      = compose p
          match axis with
          | Axis.x => Quaternion.mk (sin h) 0%R 0%R (cos h)
          | Axis.y => Quaternion.mk 0%R (sin h) 0%R (cos h)
          | Axis.z => Quaternion.mk 0%R 0%R (sin h) (cos h)
          end sc /\
      forall order', matrices (run order') (matrix mesh)
                     = matrices (run order) (matrix mesh)
  end.
Proof.
  intros Hsel Halloc mesh run.
  assert (Hrun : forall ord v, parseFloat value = Some v ->
            matrices (run ord) (matrix mesh)
            = recompose decompose (matrices s currentMatrix)
                match axis with
                | Axis.x => Quaternion.mk (sin (v * (PI / 180) / 2)) 0%R 0%R
                                          (cos (v * (PI / 180) / 2))
                | Axis.y => Quaternion.mk 0%R (sin (v * (PI / 180) / 2)) 0%R
                                          (cos (v * (PI / 180) / 2))
                | Axis.z => Quaternion.mk 0%R 0%R (sin (v * (PI / 180) / 2))
                                          (cos (v * (PI / 180) / 2))
                end).
  { intros ord v Hv. subst run. cbv beta.
    unfold eulerInputChange. rewrite Hv. cbv zeta.
    unfold applyEulerAngles, exec. rewrite Hsel, bind_run.
    unfold readMatrix at 1. cbn [fst snd].
    rewrite (setFromEuler_single_axis axis v ord).
    match goal with
    | |- context [emit (toast_success ?msg)] =>
        destruct (@recompose_run decompose setFromQuaternion state s o
                    (recompose decompose (matrices s currentMatrix)
                       match axis with
                       | Axis.x => Quaternion.mk (sin (v * (PI / 180) / 2)) 0%R 0%R
                                                 (cos (v * (PI / 180) / 2))
                       | Axis.y => Quaternion.mk 0%R (sin (v * (PI / 180) / 2)) 0%R
                                                 (cos (v * (PI / 180) / 2))
                       | Axis.z => Quaternion.mk 0%R 0%R (sin (v * (PI / 180) / 2))
                                                 (cos (v * (PI / 180) / 2))
                       end)
                    msg Hsel Halloc) as (HM & _ & _)
    end.
    exact HM. }
  destruct (parseFloat value) as [v |] eqn:Hv.
  - assert (Hall : forall order', matrices (run order') (matrix mesh)
                                  = matrices (run order) (matrix mesh))
      by (intros order'; now rewrite !(Hrun _ v eq_refl)).
    pose proof (Hrun order v eq_refl) as HM. unfold recompose in HM.
    cbv zeta. revert HM.
    destruct (decompose (matrices s currentMatrix)) as [[p q0] sc].
    intros HM. split; [exact HM | exact Hall].
  - subst run. cbv beta. unfold eulerInputChange. rewrite Hv.
    unfold exec, ret. cbn. reflexivity.
Qed.

End EulerInputClaims.

Lemma parseDecimal_90 : parseDecimal "90" = Some 90%R.
Proof. lazy -[IZR Rplus Rdiv Rmult Rinv pow Ropp]. f_equal. lra. Qed.

Lemma eulerInputChange_spec_witness :
  selectedObject sampleState = Some sampleCube /\
  meshAllocated (sampleSys Matrix4.identity) sampleCube /\
  let s' := exec (eulerInputChange decomposeUnrotated eulerUnrotated parseDecimal
                    sampleState 0 ZYX Axis.y "90")
                 (sampleSys Matrix4.identity) in
  Matrix4.e12 (matrices s' 1) = 1%R /\
  Matrix4.e5 (matrices s' 1) = 2%R.
Proof.
  split; [exact sample_selected |]. split; [apply sample_allocated |].
  pose proof (@eulerInputChange_spec decomposeUnrotated eulerUnrotated parseDecimal
                sampleState (sampleSys Matrix4.identity) sampleCube 0 ZYX Axis.y
                "90" sample_selected (sample_allocated _)) as H.
  cbv zeta beta in H. rewrite parseDecimal_90 in H.
  unfold decomposeUnrotated at 1 in H. destruct H as [H _].
  cbn [sampleSys meshes matrices sampleMesh matrix so_mesh sampleCube] in H.
  cbv zeta. rewrite H. unfold sampleMatrix, compose. cbn. split; ring.
Defined.
